(** * paste-and-pray: the devlocal bootstrap script [run.py]

    A shallow embedding of [run.py] (a Python 2 provisioning script) and
    the properties of its step-sequencing engine.

    The script drives external programs ([apt-get], [brew], [git], ...)
    through the [sh] library.  What those programs do is not part of the
    script, so the embedding is parameterised by an [External] record: an
    oracle giving, for every command line and machine state, the
    command's outcome and the file system it leaves behind.  Everything
    the script does itself (reading and writing files, [os.chdir],
    [os.environ], the orchestration loop) is modelled concretely. *)

From stdpp Require Import gmap strings list fin_maps.
From Stdlib Require Import String Ascii ZArith QArith Lia.

Open Scope string_scope.
Open Scope list_scope.

(** ** Python string operations used by the script *)

Module PyStr.

Definition nl : string := String "010" "".
Definition dq : string := String "034" "".

Fixpoint starts_with (p s : string) : bool :=
  match p, s with
  | EmptyString, _ => true
  | String a p', String b s' => Ascii.eqb a b && starts_with p' s'
  | String _ _, EmptyString => false
  end.

(** [needle in hay] on two [str] values: the substring test. *)
Fixpoint str_in (needle hay : string) : bool :=
  starts_with needle hay ||
  match hay with
  | EmptyString => false
  | String _ hay' => str_in needle hay'
  end.

(** [s.split(c)] for a one-character separator. *)
Fixpoint split_on (c : ascii) (s : string) : list string :=
  match s with
  | EmptyString => [EmptyString]
  | String a s' =>
      if Ascii.eqb a c then EmptyString :: split_on c s'
      else match split_on c s' with
           | [] => [String a EmptyString]
           | h :: t => String a h :: t
           end
  end.

(** [s.split(sep)[0]] for a non-empty separator. *)
Fixpoint before_sep (sep s : string) : string :=
  if starts_with sep s then EmptyString
  else match s with
       | EmptyString => EmptyString
       | String a s' => String a (before_sep sep s')
       end.

Definition is_space (a : ascii) : bool :=
  let n := nat_of_ascii a in
  Nat.eqb n 32 || (Nat.leb 9 n && Nat.leb n 13).

Fixpoint lstrip (s : string) : string :=
  match s with
  | EmptyString => EmptyString
  | String a s' => if is_space a then lstrip s' else s
  end.

Fixpoint rstrip (s : string) : string :=
  match s with
  | EmptyString => EmptyString
  | String a s' =>
      match rstrip s' with
      | EmptyString => if is_space a then EmptyString else String a EmptyString
      | r => String a r
      end
  end.

Definition strip (s : string) : string := rstrip (lstrip s).

Definition lower_ascii (a : ascii) : ascii :=
  let n := nat_of_ascii a in
  if Nat.leb 65 n && Nat.leb n 90 then ascii_of_nat (n + 32) else a.

Fixpoint lower (s : string) : string :=
  match s with
  | EmptyString => EmptyString
  | String a s' => String (lower_ascii a) (lower s')
  end.

(** [s.rstrip('/')]. *)
Fixpoint rstrip_slash (s : string) : string :=
  match s with
  | EmptyString => EmptyString
  | String a s' =>
      match rstrip_slash s' with
      | EmptyString => if Ascii.eqb a "/" then EmptyString else String a EmptyString
      | r => String a r
      end
  end.

Fixpoint ends_with_slash (s : string) : bool :=
  match s with
  | EmptyString => false
  | String a EmptyString => Ascii.eqb a "/"
  | String _ s' => ends_with_slash s'
  end.

Fixpoint rev_acc (s acc : string) : string :=
  match s with
  | EmptyString => acc
  | String a s' => rev_acc s' (String a acc)
  end.

Definition ends_with (suffix s : string) : bool :=
  starts_with (rev_acc suffix EmptyString) (rev_acc s EmptyString).

(** [sep.join(l)]. *)
Fixpoint join (sep : string) (l : list string) : string :=
  match l with
  | [] => EmptyString
  | [x] => x
  | x :: rest => x +:+ sep +:+ join sep rest
  end.

(** [f.readlines()]: the lines of a text, each keeping its newline. *)
Fixpoint readlines_aux (cur : string) (s : string) : list string :=
  match s with
  | EmptyString =>
      match cur with EmptyString => [] | _ => [rev_acc cur EmptyString] end
  | String a s' =>
      if Ascii.eqb a "010"
      then rev_acc (String a cur) EmptyString :: readlines_aux EmptyString s'
      else readlines_aux (String a cur) s'
  end.

Definition readlines (s : string) : list string := readlines_aux EmptyString s.

Definition is_digit (a : ascii) : bool :=
  let n := nat_of_ascii a in Nat.leb 48 n && Nat.leb n 57.

Fixpoint digits_value (acc : N) (s : string) : option N :=
  match s with
  | EmptyString => Some acc
  | String a s' =>
      if is_digit a
      then digits_value (acc * 10 + N.of_nat (nat_of_ascii a - 48))%N s'
      else None
  end.

Definition nonempty (s : string) : bool :=
  match s with EmptyString => false | _ => true end.

End PyStr.

Import PyStr.

(** [os.path.join] on POSIX: an absolute second component wins. *)
Definition path_join (a b : string) : string :=
  if starts_with "/" b then b
  else if (negb (nonempty a)) || ends_with_slash a then a +:+ b
  else a +:+ "/" +:+ b.

(** ** The machine the script runs on *)

Inductive Node : Type :=
| File (content : string)
| Dir.

Record World : Type := mkWorld {
  fs : gmap string Node;          (* the file system, by absolute path *)
  environ : gmap string string;   (* os.environ *)
  cwd : string;                   (* os.getcwd() *)
  platform : string;              (* sys.platform *)
  mac_ver : string;               (* platform.mac_ver()[0] *)
  pw_dir : string                 (* home directory in the password database *)
}.

Global Instance Node_eq_dec : EqDecision Node.
Proof. solve_decision. Defined.

Global Instance World_eq_dec : EqDecision World.
Proof. solve_decision. Defined.

Definition set_fs (f : gmap string Node) (w : World) : World :=
  mkWorld f (environ w) (cwd w) (platform w) (mac_ver w) (pw_dir w).
Definition set_environ (e : gmap string string) (w : World) : World :=
  mkWorld (fs w) e (cwd w) (platform w) (mac_ver w) (pw_dir w).
Definition set_cwd (d : string) (w : World) : World :=
  mkWorld (fs w) (environ w) d (platform w) (mac_ver w) (pw_dir w).

(** The step classes of the script. *)
Inductive StepCls : Type :=
| XCodeInstall
| HomebrewInstall
| BrewDependenciesInstall
| VirtualEnvInstall
| AptDependenciesInstall
| UpdateHostsFile
| GitClone
| VirtualEnv
| ProductionEnvironmentVariable
| SetupDatabase
| RunServerAlias
| RunServer.

Global Instance StepCls_eq_dec : EqDecision StepCls.
Proof. solve_decision. Defined.

(** What the run did, in order: the method calls the orchestrator makes on
    the steps, and the lines printed. *)
Inductive Event : Type :=
| EInstantiate (c : StepCls)
| EAlwaysRun (c : StepCls)
| EProbe (c : StepCls)
| ESetup (c : StepCls)
| EPrint (line : string).

Global Instance Event_eq_dec : EqDecision Event.
Proof. solve_decision. Defined.

(** Python exceptions the script can meet. *)
Inductive Exn : Type :=
| ErrorReturnCode (stderr : string)   (* sh.ErrorReturnCode *)
| CommandNotFound (prog : string)     (* sh.CommandNotFound *)
| IOError
| OSError
| IndexError
| ValueError
| ImportError
| NotImplementedError
| KeyboardInterrupt
| PyException (msg : string).         (* raise Exception(msg) *)

(** A computation returns, raises, or leaves through [exit(code)]. *)
Inductive Res (A : Type) : Type :=
| Ok (a : A)
| Raise (e : Exn)
| Exit (code : Z).
Arguments Ok {A} a.
Arguments Raise {A} e.
Arguments Exit {A} code.

Record St : Type := mkSt { world : World; trace : list Event }.

Definition M (A : Type) : Type := St -> Res A * St.

Definition ret {A} (a : A) : M A := fun s => (Ok a, s).

Definition bind {A B} (m : M A) (k : A -> M B) : M B :=
  fun s =>
    match m s with
    | (Ok a, s') => k a s'
    | (Raise e, s') => (Raise e, s')
    | (Exit c, s') => (Exit c, s')
    end.

Definition raise {A} (e : Exn) : M A := fun s => (Raise e, s).
Definition py_exit {A} (code : Z) : M A := fun s => (Exit code, s).

(** [try: m  except <handled>: h]. *)
Definition try_except {A} (m : M A) (h : Exn -> option (M A)) : M A :=
  fun s =>
    match m s with
    | (Raise e, s') =>
        match h e with
        | Some k => k s'
        | None => (Raise e, s')
        end
    | r => r
    end.

(** [try: m  finally: f]. *)
Definition try_finally {A} (m : M A) (f : M unit) : M A :=
  fun s =>
    match m s with
    | (r, s') =>
        match f s' with
        | (Ok _, s'') => (r, s'')
        | (Raise e, s'') => (Raise e, s'')
        | (Exit c, s'') => (Exit c, s'')
        end
    end.

Notation "'let*' x ':=' c1 'in' c2" := (bind c1 (fun x => c2))
  (at level 10, x name, c1 at level 100, c2 at level 200).
Notation "c1 '>>' c2" := (bind c1 (fun _ => c2))
  (at level 100, c2 at level 200, right associativity).

Definition get_world : M World := fun s => (Ok (world s), s).
Definition put_world (w : World) : M unit := fun s => (Ok tt, mkSt w (trace s)).
Definition emit (e : Event) : M unit :=
  fun s => (Ok tt, mkSt (world s) (trace s ++ [e])).
Definition py_print (line : string) : M unit := emit (EPrint line).

(** The status the operating system sees when the interpreter stops. *)
Definition exit_status {A} (r : Res A) : Z :=
  match r with
  | Ok _ => 0
  | Raise _ => 1
  | Exit c => c
  end.

(** ** File-system and process operations of the Python runtime *)

Definition abspath (w : World) (p : string) : string :=
  if starts_with "/" p then p else path_join (cwd w) p.

(** [os.path.exists]. *)
Definition path_exists (p : string) : M bool :=
  fun s =>
    (Ok (match fs (world s) !! abspath (world s) p with
         | Some _ => true
         | None => false
         end), s).

(** [open(p).read()]. *)
Definition read_file (p : string) : M string :=
  fun s =>
    match fs (world s) !! abspath (world s) p with
    | Some (File c) => (Ok c, s)
    | _ => (Raise IOError, s)
    end.

(** [open(p, 'w')] followed by writing [c]; a directory cannot be opened. *)
Definition write_file (p c : string) : M unit :=
  fun s =>
    let w := world s in
    match fs w !! abspath w p with
    | Some Dir => (Raise IOError, s)
    | _ => (Ok tt, mkSt (set_fs (<[abspath w p := File c]> (fs w)) w) (trace s))
    end.

(** [os.chdir]. *)
Definition chdir (p : string) : M unit :=
  fun s =>
    let w := world s in
    match fs w !! abspath w p with
    | Some Dir => (Ok tt, mkSt (set_cwd (abspath w p) w) (trace s))
    | _ => (Raise OSError, s)
    end.

(** [os.environ[k] = v]. *)
Definition setenv (k v : string) : M unit :=
  fun s =>
    let w := world s in
    (Ok tt, mkSt (set_environ (<[k := v]> (environ w)) w) (trace s)).

(** [os.environ.get(k)]. *)
Definition getenv (k : string) : M (option string) :=
  fun s => (Ok (environ (world s) !! k), s).

(** The direct children of a directory; [os.listdir]. *)
Definition child_name (d : string) (p : string) : option string :=
  let pre := if ends_with_slash d then d else d +:+ "/" in
  if starts_with pre p
  then let rest := String.substring (String.length pre)
                     (String.length p - String.length pre) p in
       if nonempty rest && negb (str_in "/" rest) then Some rest else None
  else None.

Definition listdir (p : string) : M (list string) :=
  fun s =>
    let w := world s in
    match fs w !! abspath w p with
    | Some Dir =>
        (Ok (omap (fun kv => child_name (abspath w p) (fst kv))
               (map_to_list (fs w))), s)
    | _ => (Raise OSError, s)
    end.

(** ** Constants of the script *)

Definition PROJECT_NAME : string := "advocoders".
Definition PROJECT_GIT_REPO : string := "git@github.com:chase-seibert/advocoders.git".
Definition HOST_NAMES : string := "advocoders.localhost.com".

(** The shared [options] dictionary: the keys the script ever sets. *)
Record Options : Type := mkOptions {
  home_dir : string;
  working_directory : string;
  project_dir : string;
  force : string;                 (* --force, the raw comma separated text *)
  skip : string;                  (* --skip, the raw comma separated text *)
  quiet : bool;
  opt_os : option string;
  opt_version : option Q
}.

Definition set_os_version (o : string) (v : option Q) (opts : Options) : Options :=
  mkOptions (home_dir opts) (working_directory opts) (project_dir opts)
    (force opts) (skip opts) (quiet opts) (Some o) v.

(** The step names a comma separated [--force] or [--skip] text lists. *)
Definition names_of (text : string) : list string := split_on "," text.

(** ** The world outside the script *)

Inductive CmdResult : Type :=
| Success (stdout : string)
| Failure (stderr : string)       (* non-zero exit status *)
| Interrupted.                    (* the operator pressed Ctrl-C *)

Inductive ExecResult : Type :=
| ExecOk (w : World)
| ExecRaise (e : Exn).

(** The outside world.  A child process cannot touch the interpreter's
    environment variables or working directory, so a command yields its
    outcome and a file system only; a Python file run in-process by
    [execfile] may change anything. *)
Record External : Type := mkExternal {
  (* sh.which: the program found on the PATH, if any *)
  ext_which : string -> World -> option string;
  (* running argv, streaming its output to the terminal or not, on a stdin *)
  ext_run : bool -> list string -> string -> World -> CmdResult * gmap string Node;
  (* urllib.urlretrieve: the body fetched from a URL, if the fetch works *)
  ext_urlretrieve : string -> World -> option string;
  (* execfile(path, ...) on a file with the given text *)
  ext_execfile : string -> string -> World -> ExecResult;
  (* the fresh directory tempfile.mkdtemp() picks *)
  ext_mkdtemp : World -> string;
  (* whether `import sh` works *)
  ext_import_sh : World -> bool;
  (* whether imp.load_source accepts the downloaded text *)
  ext_load_source : string -> bool
}.

Section Script.

Variable X : External.

(** *** The [sh] library, as far as the script uses it *)

(** [sh.prog]: attribute access looks the program up, and fails when it
    is not installed. *)
Definition sh_resolve (prog : string) : M string :=
  fun s =>
    match ext_which X prog (world s) with
    | Some p => (Ok p, s)
    | None => (Raise (CommandNotFound prog), s)
    end.

(** Running a resolved command line to completion. *)
Definition sh_exec (verbose : bool) (argv : list string) (stdin : string) : M string :=
  fun s =>
    let w := world s in
    match ext_run X verbose argv stdin w with
    | (Success out, f) => (Ok out, mkSt (set_fs f w) (trace s))
    | (Failure err, f) => (Raise (ErrorReturnCode err), mkSt (set_fs f w) (trace s))
    | (Interrupted, f) => (Raise KeyboardInterrupt, mkSt (set_fs f w) (trace s))
    end.

(** [sh.prog(args)]. *)
Definition sh_command (verbose : bool) (prog : string) (args : list string) : M string :=
  let* p := sh_resolve prog in sh_exec verbose (p :: args) "".

(** [urllib.urlretrieve(url, filename)]. *)
Definition urlretrieve (url filename : string) : M unit :=
  let* w := get_world in
  match ext_urlretrieve X url w with
  | Some body => write_file filename body
  | None => raise IOError
  end.

(** Running Python source text in this very process. *)
Definition run_python (text path : string) : M unit :=
  fun s =>
    match ext_execfile X text path (world s) with
    | ExecOk w' => (Ok tt, mkSt w' (trace s))
    | ExecRaise e => (Raise e, s)
    end.

(** [execfile(path, dict(__file__=path))]. *)
Definition execfile (path : string) : M unit :=
  let* text := read_file path in run_python text path.

(** *** Module-level helpers *)

(** [os.path.expanduser("~")]. *)
Definition expanduser_home : M string :=
  let* w := get_world in
  let userhome := match environ w !! "HOME" with
                  | Some h => h
                  | None => pw_dir w
                  end in
  ret (match rstrip_slash userhome with
       | EmptyString => userhome
       | r => r
       end).

Definition get_options (force_arg skip_arg : string) (quiet_arg : bool) : M Options :=
  let* home := expanduser_home in
  let* w := get_world in
  ret (mkOptions home (cwd w)
         (path_join (path_join home "projects") PROJECT_NAME)
         force_arg skip_arg quiet_arg None None).

(** [make_temp_directory().__enter__()]: nothing is undone on exit. *)
Definition make_temp_directory : M string :=
  let* w := get_world in
  let temp_dir := ext_mkdtemp X w in
  let* _ := put_world (set_fs (<[temp_dir := Dir]> (fs w)) w) in
  let* _ := chdir temp_dir in
  ret temp_dir.

Definition load_this_script_deps : M unit :=
  let* w := get_world in
  if ext_import_sh X w then ret tt
  else
    let* _ := urlretrieve "https://raw.github.com/amoffat/sh/master/sh.py" "sh.py" in
    let* text := read_file "sh.py" in
    if ext_load_source X text then ret tt else raise ImportError.

(** [float('.'.join(v.split('.')[:2]))] on a version text made of
    decimal digits and dots, the only texts [platform.mac_ver] gives. *)
Definition parse_version (v : string) : option Q :=
  match take 2 (split_on "." v) with
  | [a] =>
      if nonempty a
      then (fun n => inject_Z (Z.of_N n)) <$> digits_value 0 a
      else None
  | [a; b] =>
      if nonempty a || nonempty b
      then match digits_value 0 a, digits_value 0 b with
           | Some x, Some y =>
               let scale := (10 ^ Z.of_nat (String.length b))%Z in
               Some (Qmake (Z.of_N x * scale + Z.of_N y) (Z.to_pos scale))
           | _, _ => None
           end
      else None
  | _ => None
  end.

(** What [get_os_and_version] computes from the interpreter's globals. *)
Definition os_and_version (w : World) : Res (string * option Q) :=
  if String.eqb (platform w) "darwin" then
    match parse_version (mac_ver w) with
    | Some v => Ok ("osx", Some v)
    | None => Raise ValueError
    end
  else if String.eqb (platform w) "linux2" then Ok ("linux", None)
  else Raise (PyException ("Unsupported OS: " +:+ platform w)).

Definition get_os_and_version : M (string * option Q) :=
  fun s => (os_and_version (world s), s).

(** [sudo] keeps the original user in an environment variable; an
    unset variable gives [None], which [sh] passes on as its text. *)
Definition get_regular_username : M string :=
  let* u := getenv "SUDO_USER" in ret (default "None" u).

Definition bash_config_file (opts : Options) : M string :=
  match opt_os opts with
  | Some o =>
      if String.eqb o "linux" then ret (path_join (home_dir opts) ".bashrc")
      else if String.eqb o "osx" then ret (path_join (home_dir opts) ".bash_profile")
      else raise NotImplementedError
  | None => raise NotImplementedError
  end.

Definition prepend_file (file_path content : string) : M unit :=
  let* original_contents := read_file file_path in
  write_file file_path (content +:+ nl +:+ original_contents).

(** *** Steps *)

(** A step object: its class, the options it was built with, and what
    [self.sh] stands for: the [sh] module itself ([None], for steps that
    run as root), or [sudo -E -u user] baked from the resolved [sudo]
    and the user's name. *)
Record Step : Type := mkStep {
  cls : StepCls;
  options : Options;
  self_sh : option (string * string)
}.

Definition root (c : StepCls) : bool :=
  match c with
  | XCodeInstall | VirtualEnvInstall | AptDependenciesInstall | UpdateHostsFile => true
  | _ => false
  end.

(** [InstallStep.__init__]. *)
Definition InstallStep_init (c : StepCls) (opts : Options) : M Step :=
  if root c then ret (mkStep c opts None)
  else
    let* sudo := sh_resolve "sudo" in
    let* user := get_regular_username in
    ret (mkStep c opts (Some (sudo, user))).

(** [step_cls(options)]: only [VirtualEnv] has a constructor of its own. *)
Definition instantiate (c : StepCls) (opts : Options) : M Step :=
  match c with
  | VirtualEnv => let* _ := chdir (project_dir opts) in InstallStep_init c opts
  | _ => InstallStep_init c opts
  end.

Definition activate_this (st : Step) : string :=
  path_join (project_dir (options st)) "virtualenv/bin/activate_this.py".
Definition requirements_file (st : Step) : string :=
  path_join (project_dir (options st)) "requirements.txt".

Definition verbose_kwargs (st : Step) : bool := negb (quiet (options st)).

(** [self.sh.prog]: a look-up for root steps, a longer [sudo] line for
    the others. *)
Definition self_sh_attr (st : Step) (prog : string) : M (list string) :=
  match self_sh st with
  | None => let* p := sh_resolve prog in ret [p]
  | Some (sudo, user) => ret [sudo; "-E"; "-u"; user; prog]
  end.

Definition self_sh_call (st : Step) (verbose : bool) (prog : string)
    (args : list string) : M string :=
  let* cmd := self_sh_attr st prog in sh_exec verbose (cmd ++ args) "".

Definition run_virtualenv (verbose : bool) (command : string)
    (args : list string) : M string :=
  let* w := get_world in
  let command_bin := default "None" (ext_which X command w) in
  let* sudo := sh_resolve "sudo" in
  let* user := get_regular_username in
  sh_exec verbose ([sudo; "-E"; "-u"; user; command_bin] ++ args) "".

(** [self.__class__.__name__]. *)
Definition class_name (c : StepCls) : string :=
  match c with
  | XCodeInstall => "XCodeInstall"
  | HomebrewInstall => "HomebrewInstall"
  | BrewDependenciesInstall => "BrewDependenciesInstall"
  | VirtualEnvInstall => "VirtualEnvInstall"
  | AptDependenciesInstall => "AptDependenciesInstall"
  | UpdateHostsFile => "UpdateHostsFile"
  | GitClone => "GitClone"
  | VirtualEnv => "VirtualEnv"
  | ProductionEnvironmentVariable => "ProductionEnvironmentVariable"
  | SetupDatabase => "SetupDatabase"
  | RunServerAlias => "RunServerAlias"
  | RunServer => "RunServer"
  end.

Definition display_name (st : Step) : string := class_name (cls st).

Definition variable : string := "PRODUCTION".
Definition value : string := "False".

Definition display_doing (st : Step) : string :=
  match cls st with
  | XCodeInstall => "Downloading and installing XCode command line tools"
  | HomebrewInstall => "Installing homebrew"
  | BrewDependenciesInstall => "Installing dependendies"
  | VirtualEnvInstall => "Installing pip and virtualenv"
  | AptDependenciesInstall => "Installing apt dependencies"
  | UpdateHostsFile => "Updating hosts file"
  | GitClone => "Cloning the project repo"
  | VirtualEnv => "Setting up a virtualenv and installing python dependencies"
  | ProductionEnvironmentVariable =>
      "Setting the " +:+ variable +:+ " environment variable"
  | SetupDatabase => "Creating a local sqlite database"
  | RunServerAlias => "Creating the bash alias"
  | RunServer => "Running local development web server"
  end.

Definition brew_dependencies : list string :=
  ["libxml2"; "libxslt"; "libmagic"; "postgresql"; "libevent"].

Definition apt_dependencies : list string :=
  ["libxml2-dev"; "libxslt1-dev"; "libmagic1"; "python-virtualenv";
   "postgresql"; "libpq-dev"; "libevent-dev"].

Definition display_troubleshooting (st : Step) : option string :=
  match cls st with
  | XCodeInstall => Some (
      nl +:+ "You can manually install the XCode Command Line Tools" +:+
      nl +:+ "by signing up for a free Apple ID and logging into" +:+
      nl +:+ "https://developer.apple.com/xcode/" +:+
      nl +:+
      nl +:+ "Note: you don't need the full 2GB installer for Xcode;" +:+
      nl +:+ "the command line tools package is " +:+ dq +:+ "only" +:+ dq +:+ " 200MB." +:+
      nl)
  | HomebrewInstall => Some (
      nl +:+ "You can install homebrew manually by running this:" +:+
      nl +:+
      nl +:+ "ruby -e " +:+ dq +:+ "$(curl -fsSL https://raw.github.com/mxcl/homebrew/go)" +:+ dq +:+
      nl)
  | BrewDependenciesInstall => Some (
      nl +:+ "You can install the dependencies manually by running this:" +:+
      nl +:+
      nl +:+ "brew install " +:+ join " " brew_dependencies +:+
      nl)
  | AptDependenciesInstall => Some (
      nl +:+ "You can install the dependencies manually by running this:" +:+
      nl +:+
      nl +:+ "sudo apt-get install --yes " +:+ join " " apt_dependencies +:+
      nl)
  | UpdateHostsFile => Some (
      nl +:+ "You can update your hosts file manually with:" +:+
      nl +:+
      nl +:+ "sudo sh -c 'echo " +:+ dq +:+ "127.0.0.1 " +:+ HOST_NAMES +:+ dq +:+
             " >> /etc/hosts'" +:+
      nl)
  | _ => None
  end.

(** [len(cmd) > 0]: a finished command has the length, and the truth
    value, of its captured output. *)
Definition truthy (out : string) : bool := nonempty out.

(** [VirtualEnv.extract_pips]. *)
Definition extract_pips (lines : list string) : list string :=
  map (fun line => lower (strip (before_sep "==" line))) lines.

(** [list(set(wanted) - set(have))] is empty. *)
Definition all_among (wanted have : list string) : bool :=
  forallb (fun x => existsb (String.eqb x) have) wanted.

Definition activate (st : Step) : M unit := execfile (activate_this st).

Definition pip (st : Step) (verbose : bool) (args : list string) : M string :=
  run_virtualenv verbose "pip" args.

(** [AptDependenciesInstall._run]; [sh] spells [apt_get] as [apt-get]. *)
Definition apt_run (st : Step) (verbose : bool) (flag : string) : M string :=
  self_sh_call st verbose "apt-get" (["install"; flag] ++ apt_dependencies).

(** [self.sh.grep(sh.cat(path), pattern)], with the handler the three
    grepping probes share: only [sh.ErrorReturnCode] is caught. *)
Definition grep_probe (st : Step) (path : M string) (pattern : string) : M bool :=
  try_except
    (let* grep := self_sh_attr st "grep" in
     let* cat := sh_resolve "cat" in
     let* p := path in
     let* text := sh_exec false [cat; p] "" in
     let* found := sh_exec false (grep ++ [pattern]) text in
     ret (truthy found))
    (fun e => match e with
              | ErrorReturnCode _ => Some (ret false)
              | _ => None
              end).

(** A probe wrapped in a bare [except:]. *)
Definition version_probe (st : Step) (prog flag : string) : M bool :=
  try_except
    (let* out := self_sh_call st false prog [flag] in ret (truthy out))
    (fun _ => Some (ret false)).

(** The [already_satisfied] property of each class. *)
Definition already_satisfied (st : Step) : M bool :=
  match cls st with
  | XCodeInstall => version_probe st "make" "-version"
  | HomebrewInstall => version_probe st "brew" "--version"
  | BrewDependenciesInstall =>
      let* out := self_sh_call st false "brew" ["list"; "-1"] in
      let installed := map strip (List.filter nonempty (split_on "010" out)) in
      ret (all_among brew_dependencies installed)
  | VirtualEnvInstall => version_probe st "virtualenv" "--version"
  | AptDependenciesInstall =>
      let* out := apt_run st false "--dry-run" in
      ret (str_in "0 upgraded, 0 newly installed" out)
  | UpdateHostsFile => grep_probe st (ret "/etc/hosts") HOST_NAMES
  | GitClone => path_exists (project_dir (options st))
  | VirtualEnv =>
      let* present := path_exists (activate_this st) in
      if negb present then ret false
      else
        let* _ := activate st in
        let* frozen := pip st false ["freeze"] in
        let items_installed := extract_pips (split_on "010" frozen) in
        let* text := read_file (requirements_file st) in
        let items_required := extract_pips (readlines text) in
        ret (all_among items_required items_installed)
  | ProductionEnvironmentVariable =>
      grep_probe st (bash_config_file (options st)) variable
  | SetupDatabase =>
      (* the method reads the module-level [options], the very
         dictionary the step was built with *)
      path_exists (path_join (project_dir (options st)) "sqlite3.db")
  | RunServerAlias => grep_probe st (bash_config_file (options st)) "runserver"
  | RunServer => ret true
  end.

Definition congratulations (server_address : string) : string :=
  nl +:+ "===================================================" +:+
  nl +:+
  nl +:+ "Congradulations! Your local development environment is successfully setup and live at "
     +:+ server_address +:+ "." +:+
  nl +:+
  nl +:+ "Note: you can run the server directly in a NEW terminal by typing "
     +:+ dq +:+ "runserver" +:+ dq +:+ "." +:+
  nl +:+
  nl +:+ "===================================================" +:+
  nl.

(** [RunServer._open]. *)
Definition open_browser (st : Step) (web_address : string) : M unit :=
  match opt_os (options st) with
  | Some o =>
      if String.eqb o "linux"
      then let* _ := self_sh_call st false "xdg-open" [web_address] in ret tt
      else if String.eqb o "osx"
      then let* _ := self_sh_call st false "open" [web_address] in ret tt
      else ret tt
  | None => ret tt
  end.

(** The [always_run] hook of each class.  The development server is
    started in the background; what it does is accounted for at the
    point where the script waits for it. *)
Definition always_run (st : Step) : M unit :=
  match cls st with
  | VirtualEnv =>
      let* present := path_exists (activate_this st) in
      if present then activate st else ret tt
  | ProductionEnvironmentVariable => setenv variable value
  | RunServer =>
      let* _ := chdir (project_dir (options st)) in
      let* w := get_world in
      let command_bin := default "None" (ext_which X "python" w) in
      let* sudo := sh_resolve "sudo" in
      let* user := get_regular_username in
      let server_address := "http://localhost:8001/" in
      let* _ := py_print (congratulations server_address) in
      let* _ := open_browser st server_address in
      try_except
        (let* _ := sh_exec true
                     [sudo; "-E"; "-u"; user; command_bin;
                      "manage.py"; "runserver"; "0:8001"] "" in
         ret tt)
        (fun e => match e with
                  | KeyboardInterrupt => Some (ret tt)
                  | _ => None
                  end)
  | _ => ret tt
  end.

Definition xcode_download (version : option Q) : option string :=
  match version with
  | Some v =>
      if Qeq_bool v (107 # 10)
      then Some "http://devimages.apple.com/downloads/xcode/command_line_tools_for_xcode_os_x_lion_april_2013.dmg"
      else if Qeq_bool v (108 # 10)
      then Some "http://devimages.apple.com/downloads/xcode/command_line_tools_for_xcode_os_x_mountain_lion_april_2013.dmg"
      else None
  | None => None
  end.

Definition XCodeInstall_setup (st : Step) : M unit :=
  match xcode_download (opt_version (options st)) with
  | None => raise NotImplementedError
  | Some download_file =>
      let dmg_file := "/tmp/xcode.dmg" in
      let* have_dmg := path_exists dmg_file in
      let* _ := if have_dmg then ret tt else urlretrieve download_file dmg_file in
      let volume_dir := "/tmp/xcode" in
      let* mounted := path_exists volume_dir in
      let* _ := if mounted then ret tt
                else let* _ := self_sh_call st (verbose_kwargs st) "hdiutil"
                                 ["attach"; "-mountpoint"; volume_dir; dmg_file] in
                     ret tt in
      let* files := listdir volume_dir in
      match List.filter (ends_with ".mpkg") files with
      | [] => raise IndexError
      | mpkg_file :: _ =>
          try_finally
            (try_except
               (let* _ := self_sh_call st (verbose_kwargs st) "installer"
                            ["-pkg"; path_join volume_dir mpkg_file; "-target"; "/"] in
                ret tt)
               (fun e => match e with
                         | ErrorReturnCode err => Some (py_print err)
                         | _ => None
                         end))
            (let* _ := self_sh_call st false "hdiutil" ["detach"; volume_dir] in ret tt)
      end
  end.

Definition runserver_alias (opts : Options) : string :=
  "alias runserver=" +:+ dq +:+ "cd " +:+ project_dir opts +:+
  "; source ../virtualenv/bin/activate; ./manage.py runserver 8001" +:+ dq.

(** The [setup] method of each class. *)
Definition setup (st : Step) : M unit :=
  match cls st with
  | XCodeInstall => XCodeInstall_setup st
  | HomebrewInstall =>
      let homebrew_fix := "homebrew_fix.rb" in
      let* _ := urlretrieve "https://gist.github.com/rpavlik/768518/raw/fix_homebrew.rb"
                  homebrew_fix in
      let* _ := self_sh_call st (verbose_kwargs st) "ruby" [homebrew_fix] in
      let homebrew_source := "homebrew.rb" in
      let* _ := urlretrieve "https://raw.github.com/mxcl/homebrew/go" homebrew_source in
      let* _ := self_sh_call st (verbose_kwargs st) "ruby" [homebrew_source] in
      ret tt
  | BrewDependenciesInstall =>
      let* _ := self_sh_call st (verbose_kwargs st) "brew" ("install" :: brew_dependencies) in
      ret tt
  | VirtualEnvInstall =>
      let* _ := self_sh_call st (verbose_kwargs st) "easy_install" ["pip"] in
      let* _ := self_sh_call st (verbose_kwargs st) "pip" ["install"; "virtualenv"] in
      ret tt
  | AptDependenciesInstall =>
      let* _ := apt_run st (verbose_kwargs st) "--yes" in ret tt
  | UpdateHostsFile => prepend_file "/etc/hosts" ("127.0.0.1 " +:+ HOST_NAMES)
  | GitClone =>
      let* _ := self_sh_call st false "git"
                  ["clone"; PROJECT_GIT_REPO; project_dir (options st)] in
      ret tt
  | VirtualEnv =>
      let* present := path_exists (activate_this st) in
      let* _ := if present then ret tt
                else let* _ := self_sh_call st false "virtualenv"
                                 ["--no-site-packages"; "--distribute"; "virtualenv"] in
                     ret tt in
      let* _ := activate st in
      let* _ := pip st (verbose_kwargs st) ["install"; "-r"; requirements_file st] in
      ret tt
  | ProductionEnvironmentVariable =>
      let* path := bash_config_file (options st) in
      prepend_file path ("export " +:+ variable +:+ "=" +:+ value)
  | SetupDatabase =>
      let* _ := chdir (project_dir (options st)) in
      let* _ := run_virtualenv (verbose_kwargs st) "python" ["manage.py"; "resetdb"] in
      ret tt
  | RunServerAlias =>
      let* path := bash_config_file (options st) in
      prepend_file path (runserver_alias (options st))
  | RunServer => raise NotImplementedError
  end.

(** *** The catalog and the orchestrator *)

Definition get_steps (_os : string) (version : option Q) : list StepCls :=
  (if String.eqb _os "osx"
   then [XCodeInstall; HomebrewInstall; BrewDependenciesInstall; VirtualEnvInstall]
   else []) ++
  (if String.eqb _os "linux" then [AptDependenciesInstall] else []) ++
  [UpdateHostsFile; GitClone; VirtualEnv; ProductionEnvironmentVariable;
   SetupDatabase; RunServerAlias; RunServer].

Definition print_troubleshooting (st : Step) : M unit :=
  match display_troubleshooting st with
  | Some text =>
      if nonempty text
      then let* _ := py_print "" in
           let* _ := py_print "=================== Trouble-shooting ===================" in
           py_print text
      else ret tt
  | None => ret tt
  end.

(** What follows [step.setup()] in the loop body. *)
Definition after_setup (opts : Options) (step : Step) : M unit :=
  if str_in (display_name step) (force opts)
  then py_exit 1
  else
    let* _ := emit (EProbe (cls step)) in
    let* satisfied := already_satisfied step in
    if satisfied then ret tt
    else
      let* _ := py_print ("ERROR: " +:+ display_name step +:+ " failed.") in
      let* _ := print_troubleshooting step in
      py_exit 1.

(** [try: step.setup()  except sh.ErrorReturnCode as e: print e.stderr]. *)
Definition guarded_setup (step : Step) : M unit :=
  let* _ := emit (ESetup (cls step)) in
  try_except (setup step)
    (fun e => match e with
              | ErrorReturnCode err => Some (py_print err)
              | _ => None
              end).

(** The opening of a loop turn: the step is built and its hook run. *)
Definition reach (opts : Options) (step_cls : StepCls) : M Step :=
  let* _ := emit (EInstantiate step_cls) in
  let* step := instantiate step_cls opts in
  let* _ := emit (EAlwaysRun step_cls) in
  let* _ := always_run step in
  ret step.

(** The rest of the turn, from the skip test on. *)
Definition conclude (opts : Options) (step : Step) : M unit :=
  if str_in (display_name step) (skip opts) then ret tt
  else
    let* _ := emit (EProbe (cls step)) in
    let* satisfied := already_satisfied step in
    if satisfied && negb (str_in (display_name step) (force opts)) then ret tt
    else
      let* _ := py_print (display_doing step +:+ "...") in
      let* _ := guarded_setup step in
      after_setup opts step.

(** One turn of the loop of [run_steps]; returning normally is
    [continue]. *)
Definition run_step (opts : Options) (step_cls : StepCls) : M unit :=
  let* step := reach opts step_cls in conclude opts step.

Fixpoint for_steps (opts : Options) (steps : list StepCls) : M unit :=
  match steps with
  | [] => ret tt
  | step_cls :: rest => let* _ := run_step opts step_cls in for_steps opts rest
  end.

Definition run_steps (temp_dir : string) (opts : Options) : M unit :=
  let* os_version_tuple := get_os_and_version in
  let opts' := set_os_version (fst os_version_tuple) (snd os_version_tuple) opts in
  for_steps opts' (get_steps (fst os_version_tuple) (snd os_version_tuple)).

(** The script body under [if __name__ == "__main__"] from the call of
    [get_options] on (lines 509 to 514), given the parsed
    command line. *)
Definition main (force_arg skip_arg : string) (quiet_arg : bool) : M unit :=
  let* opts := get_options force_arg skip_arg quiet_arg in
  let* temp_dir := make_temp_directory in
  let* _ := load_this_script_deps in
  let* _ := sh_command false "chmod" ["777"; temp_dir] in
  run_steps temp_dir opts.

End Script.

(** ** A simulated machine

    One concrete outside world, used to run the script on explicit
    inputs.  Installed packages, the clone and the sandbox are files;
    programs listed as missing are not on the PATH, programs listed as
    failing exit with a non-zero status. *)

Module Sim.

Record Config : Type := mkConfig {
  missing : list string;
  failing : list string
}.

Definition mem (x : string) (l : list string) : bool := existsb (String.eqb x) l.

Definition basename (p : string) : string := List.last (split_on "/" p) "".

Definition dirname (p : string) : string :=
  join "/" (List.removelast (split_on "/" p)).

Definition strip_sudo (argv : list string) : list string :=
  match argv with
  | sudo :: _ :: _ :: _ :: rest =>
      if String.eqb (basename sudo) "sudo" then rest else argv
  | _ => argv
  end.

Definition has (f : gmap string Node) (p : string) : bool :=
  match f !! p with Some _ => true | None => false end.

Definition text_of (f : gmap string Node) (p : string) : string :=
  match f !! p with Some (File c) => c | _ => "" end.

Definition pkg_marker (pkg : string) : string := "/var/lib/dpkg/info/" +:+ pkg +:+ ".list".

Definition grep_lines (pattern text : string) : list string :=
  List.filter (str_in pattern) (split_on "010" text).

Definition run (cfg : Config) (verbose : bool) (argv : list string)
    (stdin : string) (w : World) : CmdResult * gmap string Node :=
  let f := fs w in
  match strip_sudo argv with
  | [] => (Failure "", f)
  | p :: args =>
      let prog := basename p in
      let named x := String.eqb prog x in
      let here x := path_join (cwd w) x in
      if mem prog (missing cfg) || named "None"
      then (Failure ("sudo: " +:+ prog +:+ ": command not found"), f)
      else if mem prog (failing cfg) then (Failure (prog +:+ ": failed"), f)
      else if named "cat" then
        match args with
        | [path] =>
            (match f !! abspath w path with
             | Some (File c) => Success c
             | _ => Failure ("cat: " +:+ path +:+ ": No such file or directory")
             end, f)
        | _ => (Failure "cat: usage", f)
        end
      else if named "grep" then
        match args with
        | [pattern] =>
            (match grep_lines pattern stdin with
             | [] => Failure ""
             | found => Success (join nl found +:+ nl)
             end, f)
        | _ => (Failure "grep: usage", f)
        end
      else if named "apt-get" then
        match args with
        | _ :: flag :: pkgs =>
            if String.eqb flag "--dry-run" then
              (Success
                 (if forallb (fun pkg => has f (pkg_marker pkg)) pkgs
                  then "0 upgraded, 0 newly installed, 0 to remove and 0 not upgraded."
                  else "0 upgraded, 7 newly installed, 0 to remove and 0 not upgraded."),
               f)
            else (Success "",
                  foldr (fun pkg acc => <[pkg_marker pkg := File ""]> acc) f pkgs)
        | _ => (Failure "apt-get: usage", f)
        end
      else if named "git" then
        match args with
        | [_; _; dir] =>
            (Success "",
             <[path_join dir "manage.py" := File "#!/usr/bin/env python"]>
               (<[path_join dir "requirements.txt" := File ("Django==1.5.1" +:+ nl)]>
                  (<[dir := Dir]> f)))
        | _ => (Failure "git: usage", f)
        end
      else if named "virtualenv" then
        match args with
        | [_] => (Success "1.9.1", f)
        | _ =>
            (Success "",
             <[here "virtualenv/bin/activate_this.py" := File "# activate"]>
               (<[here "virtualenv/bin" := Dir]> (<[here "virtualenv" := Dir]> f)))
        end
      else if named "pip" then
        match args with
        | [_] => (Success (text_of f (here "virtualenv/freeze.txt")), f)
        | [_; _; req] =>
            (Success "",
             <[here "virtualenv/freeze.txt" := File (text_of f (abspath w req))]> f)
        | _ => (Success "", f)
        end
      else if named "python" then
        match args with
        | [_; cmd] =>
            if String.eqb cmd "resetdb"
            then (Success "", <[here "sqlite3.db" := File "db"]> f)
            else (Success "", f)
        | _ => (Success "", f)
        end
      else if named "make" then (Success "GNU Make 3.81", f)
      else if named "brew" then
        match args with
        | [_] => (Success "0.9.4", f)
        | [_; _] => (Success (join nl ["libevent"; "libmagic"; "libxml2"; "libxslt";
                                       "postgresql"] +:+ nl), f)
        | _ => (Success "", f)
        end
      else (Success "", f)
  end.

Definition which (cfg : Config) (prog : string) (w : World) : option string :=
  if mem prog (missing cfg) then None else Some ("/usr/bin/" +:+ prog).

(** What virtualenv's [activate_this.py] does to the process: the
    sandbox's [bin] directory goes to the front of [PATH]. *)
Definition activate_this_py (text path : string) (w : World) : ExecResult :=
  let old_os_path := default "" (environ w !! "PATH") in
  ExecOk (set_environ (<["PATH" := dirname path +:+ ":" +:+ old_os_path]> (environ w)) w).

(** An activation script that leaves an activated process alone. *)
Definition activate_once (text path : string) (w : World) : ExecResult :=
  let old_os_path := default "" (environ w !! "PATH") in
  if starts_with (dirname path +:+ ":") old_os_path then ExecOk w
  else activate_this_py text path w.

Definition machine_with (script : string -> string -> World -> ExecResult)
    (cfg : Config) : External :=
  mkExternal (which cfg) (run cfg)
    (fun url _ => Some ("# " +:+ url))
    script
    (fun _ => "/tmp/tmpJk3bQz")
    (fun _ => true)
    (fun _ => true).

Definition machine : Config -> External := machine_with activate_this_py.

(** A machine on which the project's [manage.py resetdb] also writes a
    fresh hosts file. *)
Definition run_resetting (cfg : Config) (verbose : bool) (argv : list string)
    (stdin : string) (w : World) : CmdResult * gmap string Node :=
  let result := run cfg verbose argv stdin w in
  match strip_sudo argv with
  | p :: [_; cmd] =>
      if String.eqb (basename p) "python" && String.eqb cmd "resetdb"
      then (fst result, <["/etc/hosts" := File ("127.0.0.1 localhost" +:+ nl)]> (snd result))
      else result
  | _ => result
  end.

Definition resetting_machine (cfg : Config) : External :=
  mkExternal (which cfg) (run_resetting cfg)
    (fun url _ => Some ("# " +:+ url))
    activate_once
    (fun _ => "/tmp/tmpJk3bQz")
    (fun _ => true)
    (fun _ => true).

Definition healthy : Config := mkConfig [] [].

Definition home : string := "/home/dev".
Definition project : string := "/home/dev/projects/advocoders".

Definition base_environ : gmap string string :=
  <["HOME" := home]> (<["SUDO_USER" := "dev"]> (<["PATH" := "/usr/bin:/bin"]> ∅)).

(** A bare machine: only the hosts file and the shell profile exist. *)
Definition bare_fs : gmap string Node :=
  <["/tmp" := Dir]>
    (<["/etc/hosts" := File ("127.0.0.1 localhost" +:+ nl)]>
       (<["/home/dev/.bashrc" := File ("# ~/.bashrc" +:+ nl)]>
          (<["/home/dev/.bash_profile" := File ("# ~/.bash_profile" +:+ nl)]>
             (<["/home/dev" := Dir]> ∅)))).

Definition bare (platform_name version : string) : World :=
  mkWorld bare_fs base_environ "/home/dev" platform_name version "/home/dev".

Definition start (w : World) : St := mkSt w [].

Definition linux : World := bare "linux2" "".
Definition osx : World := bare "darwin" "10.8.4".
Definition windows : World := bare "win32" "".

(** The options [get_options] builds on this machine. *)
Definition options (force_arg skip_arg : string) : Options :=
  mkOptions home home project force_arg skip_arg false None None.

Definition temp_dir : string := "/tmp/tmpJk3bQz".

(** The machine a complete run of the script leaves behind. *)
Definition provisioned (X : External) (w : World) : World :=
  world (snd (main X "" "" false (start w))).

(** The step object built on this machine for a class. *)
Definition built (opts : Options) (c : StepCls) : Step :=
  mkStep c opts (if root c then None else Some ("/usr/bin/sudo", "dev")).

(** What building a step and running its hook records. *)
Definition hook_events (c : StepCls) : list Event :=
  [EInstantiate c; EAlwaysRun c] ++
  match c with
  | RunServer => [EPrint (congratulations "http://localhost:8001/")]
  | _ => []
  end.

End Sim.


(** ** Vocabulary of the properties *)

(** The classes a trace shows being built, probed, and the lines printed. *)
Definition instantiations (t : list Event) : list StepCls :=
  omap (fun e => match e with EInstantiate c => Some c | _ => None end) t.

Definition probes (t : list Event) : list StepCls :=
  omap (fun e => match e with EProbe c => Some c | _ => None end) t.

Definition printed (t : list Event) : list string :=
  omap (fun e => match e with EPrint line => Some line | _ => None end) t.

(** The classes whose [setup] a trace shows being called. *)
Definition setups (t : list Event) : list StepCls :=
  omap (fun e => match e with ESetup c => Some c | _ => None end) t.

Definition is_print (e : Event) : Prop :=
  match e with EPrint _ => True | _ => False end.

(** [s'] continues [s] with events that all satisfy [P]. *)
Definition emits (P : Event -> Prop) : relation St :=
  fun s s' => exists l, trace s' = trace s ++ l /\ Forall P l.

(** The machine is as it was. *)
Definition same_world : relation St :=
  fun s s' => world s' = world s.

(** Whatever the outcome, the computation moves the state along [R]. *)
Definition keeps {A} (R : relation St) (m : M A) : Prop :=
  forall s, R s (snd (m s)).

(** The computation never leaves through [exit]. *)
Definition never_exits {A} (m : M A) : Prop :=
  forall s c s', m s <> (Exit c, s').

(** The state with one more event, as [emit] leaves it. *)
Definition noting (e : Event) (s : St) : St := mkSt (world s) (trace s ++ [e]).

(** The state with several more events, in order. *)
Definition noting_all (evs : list Event) (s : St) : St :=
  fold_left (fun s e => noting e s) evs s.

(** The queries the satisfaction probes put to a program. *)
Inductive probe_query : string -> list string -> Prop :=
| pq_make : probe_query "make" ["-version"]
| pq_brew : probe_query "brew" ["--version"]
| pq_brew_list : probe_query "brew" ["list"; "-1"]
| pq_virtualenv : probe_query "virtualenv" ["--version"]
| pq_apt : probe_query "apt-get" ("install" :: "--dry-run" :: apt_dependencies)
| pq_grep pattern : probe_query "grep" [pattern].

(** The command lines the probes run: a query put to a resolved program,
    or to a program through the resolved [sudo], and [cat] of one file. *)
Inductive probe_command (X : External) : list string -> Prop :=
| pc_direct w prog path args :
    ext_which X prog w = Some path -> probe_query prog args ->
    probe_command X (path :: args)
| pc_sudo w sudo user prog args :
    ext_which X "sudo" w = Some sudo -> probe_query prog args ->
    probe_command X ([sudo; "-E"; "-u"; user; prog] ++ args)
| pc_cat w cat path :
    ext_which X "cat" w = Some cat -> probe_command X [cat; path].

(** The external programs behind the probes only read. *)
Definition read_only_probes (X : External) : Prop :=
  forall verbose argv stdin w,
    probe_command X argv -> snd (ext_run X verbose argv stdin w) = fs w.

(** The interpreter's platform and the record of the run are as they
    were. *)
Definition same_platform : relation St :=
  fun s s' => platform (world s') = platform (world s) /\ trace s' = trace s.

(** A computation that ends in an exception, having left the platform
    and the record alone. *)
Definition raises_quietly {A} (s : St) (r : Res A * St) : Prop :=
  (exists e, fst r = Raise e) /\ same_platform s (snd r).

(** The turn of a step, started in [sa] once the step is built and its
    hook has run, finds the step satisfied and leaves [p']: at the first
    probe, or at the probe that follows the call of [setup]. *)
Definition verified (X : External) (st : Step) (sa p' : St) : Prop :=
  already_satisfied X st (noting (EProbe (cls st)) sa) = (Ok true, p') \/
  exists s3 sp,
    already_satisfied X st (noting (EProbe (cls st)) sa) = (Ok false, s3) /\
    guarded_setup X st (noting (EPrint (display_doing st +:+ "...")) s3) = (Ok tt, sp) /\
    already_satisfied X st (noting (EProbe (cls st)) sp) = (Ok true, p').

(** The user [sudo] recorded is as it was. *)
Definition same_user : relation St :=
  fun s s' => environ (world s') !! "SUDO_USER" = environ (world s) !! "SUDO_USER".

(** The file a step's [setup] edits through [prepend_file], and the entry
    it passes. *)
Inductive adds_entry (st : Step) (s : St) : string -> string -> Prop :=
| adds_host :
    cls st = UpdateHostsFile ->
    adds_entry st s "/etc/hosts" ("127.0.0.1 " +:+ HOST_NAMES)
| adds_export path :
    cls st = ProductionEnvironmentVariable ->
    bash_config_file (options st) s = (Ok path, s) ->
    adds_entry st s path ("export " +:+ variable +:+ "=" +:+ value)
| adds_alias path :
    cls st = RunServerAlias ->
    bash_config_file (options st) s = (Ok path, s) ->
    adds_entry st s path (runserver_alias (options st)).

(** The method calls a trace shows, the printed lines left out. *)
Definition is_call (e : Event) : bool :=
  match e with EPrint _ => false | _ => true end.

Definition calls (t : list Event) : list Event := List.filter is_call t.

(** [s'] shows the method calls [l] more than [s]. *)
Definition adds (l : list Event) (s s' : St) : Prop :=
  calls (trace s') = calls (trace s) ++ l.

(** The method calls a turn of the loop can make on its step, by the way
    the turn ends: returning (the loop goes on), raising, or [exit]. *)
Definition turn_calls (c : StepCls) (r : Res unit) : list (list Event) :=
  match r with
  | Ok _ =>
      [ [EInstantiate c; EAlwaysRun c];
        [EInstantiate c; EAlwaysRun c; EProbe c];
        [EInstantiate c; EAlwaysRun c; EProbe c; ESetup c; EProbe c] ]
  | Raise _ =>
      [ [EInstantiate c];
        [EInstantiate c; EAlwaysRun c];
        [EInstantiate c; EAlwaysRun c; EProbe c];
        [EInstantiate c; EAlwaysRun c; EProbe c; ESetup c];
        [EInstantiate c; EAlwaysRun c; EProbe c; ESetup c; EProbe c] ]
  | Exit _ =>
      [ [EInstantiate c; EAlwaysRun c; EProbe c; ESetup c];
        [EInstantiate c; EAlwaysRun c; EProbe c; ESetup c; EProbe c] ]
  end.

(** The steps every catalog ends with. *)
Definition common_steps : list StepCls :=
  [UpdateHostsFile; GitClone; VirtualEnv; ProductionEnvironmentVariable;
   SetupDatabase; RunServerAlias; RunServer].

(** * Properties *)

(** Closing an equation by evaluating its left side. *)
Ltac by_evaluation :=
  match goal with
  | |- ?a = ?b => exact (@eq_refl _ b <: a = b)
  end.

(** Closing an equation between machines by running the decision
    procedure for it. *)
Ltac by_decision :=
  match goal with |- ?P => apply (bool_decide_eq_true_1 P) end;
  match goal with |- ?G => exact (@eq_refl bool true <: G) end.

Lemma pair_of_fst {A B} (p : A * B) a : fst p = a -> p = (a, snd p).
Proof. destruct p. simpl. by intros ->. Qed.

(** ** Strings *)

Lemma starts_with_nil s : starts_with "" s = true.
Proof. by destruct s. Qed.

Lemma str_in_nil s : str_in "" s = true.
Proof. by destruct s. Qed.

Lemma str_in_tail a needle hay :
  str_in needle hay = true -> str_in needle (String a hay) = true.
Proof. intros H. simpl. rewrite H. by rewrite orb_true_r. Qed.

Lemma split_on_nonempty c s : split_on c s <> [].
Proof. destruct s; simpl; [done|]. destruct (Ascii.eqb a c); [done|]. by destruct (split_on c s). Qed.

(** The first piece of a split is a prefix of the text. *)
Lemma split_on_head c s h t : split_on c s = h :: t -> starts_with h s = true.
Proof.
  revert h t. induction s as [|a s IH]; intros h t; simpl.
  - by intros [= <- <-].
  - destruct (Ascii.eqb a c).
    + by intros [= <- <-].
    + destruct (split_on c s) as [|h' t'] eqn:E.
      * intros [= <- <-]. simpl. by rewrite Ascii.eqb_refl.
      * intros [= <- <-]. simpl. rewrite Ascii.eqb_refl. simpl. by eapply IH.
Qed.

(** Every piece of a split occurs in the text: a name listed in a comma
    separated text passes Python's [in] test on that text. *)
Lemma split_on_str_in c s x : In x (split_on c s) -> str_in x s = true.
Proof.
  revert x. induction s as [|a s IH]; intros x; simpl.
  - intros [<- | []]. done.
  - destruct (Ascii.eqb a c).
    + intros [<- | Hin].
      * done.
      * rewrite (IH _ Hin). by rewrite orb_true_r.
    + destruct (split_on c s) as [|h t] eqn:E.
      * intros [<- | []]. simpl. by rewrite Ascii.eqb_refl.
      * intros [<- | Hin].
        -- simpl. rewrite Ascii.eqb_refl. simpl.
           by rewrite (split_on_head _ _ _ _ E).
        -- rewrite (IH x); [by rewrite orb_true_r|]. by right.
Qed.

Lemma names_of_str_in name text : In name (names_of text) -> str_in name text = true.
Proof. apply split_on_str_in. Qed.

(** ** Framing: what a computation leaves alone *)

Global Instance emits_preorder P : PreOrder (emits P).
Proof.
  split.
  - intros s. exists []. by rewrite app_nil_r.
  - intros a b c [l1 [E1 F1]] [l2 [E2 F2]]. exists (l1 ++ l2). split.
    + by rewrite E2, E1, app_assoc.
    + by apply Forall_app.
Qed.

Global Instance same_world_preorder : PreOrder same_world.
Proof.
  split.
  - by intros s.
  - intros a b c H1 H2. unfold same_world in *. congruence.
Qed.

Lemma emits_weaken (P Q : Event -> Prop) s s' :
  (forall e, P e -> Q e) -> emits P s s' -> emits Q s s'.
Proof.
  intros HPQ [l [E F]]. exists l. split; [done|].
  eapply Forall_impl; eauto.
Qed.

Section Frame.

Context (R : relation St) `{!PreOrder R}.

Lemma keeps_fixed {A} (m : M A) : (forall s, snd (m s) = s) -> keeps R m.
Proof. intros H s. rewrite H. reflexivity. Qed.

Lemma keeps_ret {A} (a : A) : keeps R (ret a).
Proof. by apply keeps_fixed. Qed.

Lemma keeps_raise {A} e : keeps R (@raise A e).
Proof. by apply keeps_fixed. Qed.

Lemma keeps_exit {A} c : keeps R (@py_exit A c).
Proof. by apply keeps_fixed. Qed.

Lemma keeps_bind {A B} (m : M A) (k : A -> M B) :
  keeps R m -> (forall a, keeps R (k a)) -> keeps R (bind m k).
Proof.
  intros Hm Hk s. unfold bind. specialize (Hm s).
  destruct (m s) as [[a|e|c] s1]; simpl in *; [|done..].
  etransitivity; [exact Hm|]. apply Hk.
Qed.

Lemma keeps_try_except {A} (m : M A) h :
  keeps R m -> (forall e k, h e = Some k -> keeps R k) -> keeps R (try_except m h).
Proof.
  intros Hm Hh s. unfold try_except. specialize (Hm s).
  destruct (m s) as [[a|e|c] s1]; simpl in *; [done| |done].
  destruct (h e) as [k|] eqn:E; [|done].
  etransitivity; [exact Hm|]. by eapply Hh.
Qed.

Lemma keeps_try_finally {A} (m : M A) f :
  keeps R m -> keeps R f -> keeps R (try_finally m f).
Proof.
  intros Hm Hf s. unfold try_finally. specialize (Hm s).
  destruct (m s) as [r s1]. specialize (Hf s1). simpl in *.
  destruct (f s1) as [[[]|e|c] s2]; simpl in *; by etransitivity.
Qed.

Lemma keeps_get_world : keeps R get_world.
Proof. by apply keeps_fixed. Qed.

Lemma keeps_path_exists p : keeps R (path_exists p).
Proof. by apply keeps_fixed. Qed.

Lemma keeps_read_file p : keeps R (read_file p).
Proof.
  apply keeps_fixed. intros s. unfold read_file.
  by destruct (fs (world s) !! abspath (world s) p) as [[]|].
Qed.

Lemma keeps_getenv k : keeps R (getenv k).
Proof. by apply keeps_fixed. Qed.

Lemma keeps_listdir p : keeps R (listdir p).
Proof.
  apply keeps_fixed. intros s. unfold listdir.
  by destruct (fs (world s) !! abspath (world s) p) as [[]|].
Qed.

Lemma keeps_sh_resolve X prog : keeps R (sh_resolve X prog).
Proof.
  apply keeps_fixed. intros s. unfold sh_resolve.
  by destruct (ext_which X prog (world s)).
Qed.

End Frame.

(** Operations on the machine leave the trace alone. *)
Lemma emits_silent {A} P (m : M A) :
  (forall s, trace (snd (m s)) = trace s) -> keeps (emits P) m.
Proof. intros H s. exists []. by rewrite H, app_nil_r. Qed.

Lemma emits_put_world P w : keeps (emits P) (put_world w).
Proof. by apply emits_silent. Qed.

Lemma emits_write_file P p c : keeps (emits P) (write_file p c).
Proof.
  apply emits_silent. intros s. unfold write_file.
  by destruct (fs (world s) !! abspath (world s) p) as [[]|].
Qed.

Lemma emits_chdir P p : keeps (emits P) (chdir p).
Proof.
  apply emits_silent. intros s. unfold chdir.
  by destruct (fs (world s) !! abspath (world s) p) as [[]|].
Qed.

Lemma emits_setenv P k v : keeps (emits P) (setenv k v).
Proof. by apply emits_silent. Qed.

Lemma emits_sh_exec P X verbose argv stdin : keeps (emits P) (sh_exec X verbose argv stdin).
Proof.
  apply emits_silent. intros s. unfold sh_exec.
  by destruct (ext_run X verbose argv stdin (world s)) as [[] f].
Qed.

Lemma emits_run_python P X text path : keeps (emits P) (run_python X text path).
Proof.
  apply emits_silent. intros s. unfold run_python.
  by destruct (ext_execfile X text path (world s)).
Qed.

Lemma emits_emit (P : Event -> Prop) e : P e -> keeps (emits P) (emit e).
Proof. intros H s. exists [e]. split; [done|]. by constructor. Qed.

Lemma emits_py_print (P : Event -> Prop) line :
  P (EPrint line) -> keeps (emits P) (py_print line).
Proof. apply emits_emit. Qed.

(** Recording an event or printing does not touch the machine. *)
Lemma same_world_emit e : keeps same_world (emit e).
Proof. by intros s. Qed.

Lemma same_world_py_print line : keeps same_world (py_print line).
Proof. by intros s. Qed.

(** A probe's command line leaves the machine as it was, when the
    programs behind the probes only read. *)
Lemma same_world_sh_exec X verbose argv stdin :
  read_only_probes X -> probe_command X argv ->
  keeps same_world (sh_exec X verbose argv stdin).
Proof.
  intros Hro Hpc s. unfold sh_exec, same_world.
  specialize (Hro verbose argv stdin (world s) Hpc).
  destruct (ext_run X verbose argv stdin (world s)) as [[] f]; simpl in *; subst f;
    by destruct (world s).
Qed.

Create HintDb frame.

#[export] Hint Resolve emits_put_world emits_write_file emits_chdir emits_setenv
  emits_sh_exec emits_run_python emits_emit emits_py_print
  same_world_emit same_world_py_print : frame.

(** Splitting a [keeps] goal along the structure of the program. *)
Ltac frame_leaf :=
  first
    [ apply keeps_ret | apply keeps_raise | apply keeps_exit | apply keeps_get_world
    | apply keeps_path_exists | apply keeps_read_file | apply keeps_getenv
    | apply keeps_listdir | apply keeps_sh_resolve
    | solve [ eauto with frame ] ].

Ltac frame_handler :=
  let e := fresh "e" in let k := fresh "k" in let H := fresh "H" in
  intros e k H; try destruct e; simplify_eq.

Ltac frame :=
  repeat first
    [ match goal with |- PreOrder _ => typeclasses eauto end
    | frame_leaf
    | apply keeps_bind; [ .. | intros ? ]
    | apply keeps_try_finally
    | apply keeps_try_except; [ .. | frame_handler ]
    | match goal with
      | |- keeps _ (match ?x with _ => _ end) => destruct x
      | |- keeps _ (if ?x then _ else _) => destruct x
      | |- keeps _ (let _ := _ in _) => cbv zeta
      end ].
(** ** The steps only print *)

Ltac unfold_script :=
  repeat progress unfold instantiate, InstallStep_init, get_regular_username, always_run,
    already_satisfied, setup, XCodeInstall_setup, version_probe, grep_probe,
    apt_run, pip, activate, execfile, run_virtualenv, self_sh_call, self_sh_attr,
    sh_command, urlretrieve, prepend_file, bash_config_file, open_browser,
    print_troubleshooting.

Section MethodsPrint.

Context (X : External) (P : Event -> Prop) (HP : forall line, P (EPrint line)).

Lemma emits_instantiate c opts : keeps (emits P) (instantiate X c opts).
Proof. unfold_script. destruct c; simpl; frame. Qed.

Lemma emits_always_run st : keeps (emits P) (always_run X st).
Proof. unfold_script. destruct (cls st); frame. Qed.

Lemma emits_already_satisfied st : keeps (emits P) (already_satisfied X st).
Proof. unfold_script. destruct (cls st); frame. Qed.

Lemma emits_setup st : keeps (emits P) (setup X st).
Proof. unfold_script. destruct (cls st); frame. Qed.

Lemma emits_print_troubleshooting st : keeps (emits P) (print_troubleshooting st).
Proof. unfold_script. frame. Qed.

End MethodsPrint.

(** ** Sequencing *)

Lemma bind_ok {A B} (m : M A) (k : A -> M B) s a s1 :
  m s = (Ok a, s1) -> bind m k s = k a s1.
Proof. intros H. unfold bind. by rewrite H. Qed.

Lemma bind_raise {A B} (m : M A) (k : A -> M B) s e s1 :
  m s = (Raise e, s1) -> bind m k s = (Raise e, s1).
Proof. intros H. unfold bind. by rewrite H. Qed.

Lemma bind_exit {A B} (m : M A) (k : A -> M B) s c s1 :
  m s = (Exit c, s1) -> bind m k s = (Exit c, s1).
Proof. intros H. unfold bind. by rewrite H. Qed.

Lemma bind_ok_inv {A B} (m : M A) (k : A -> M B) s b s' :
  bind m k s = (Ok b, s') -> exists a s1, m s = (Ok a, s1) /\ k a s1 = (Ok b, s').
Proof.
  unfold bind. destruct (m s) as [[a|e|c] s1]; [|done..].
  intros H. by exists a, s1.
Qed.

Lemma bind_emit {B} e (k : unit -> M B) s : bind (emit e) k s = k tt (noting e s).
Proof. done. Qed.

Lemma instantiate_fields X c opts s st s' :
  instantiate X c opts s = (Ok st, s') -> cls st = c /\ options st = opts.
Proof.
  assert (Hbase : forall s s', InstallStep_init X c opts s = (Ok st, s') ->
                               cls st = c /\ options st = opts).
  { clear. intros s s'. unfold InstallStep_init. destruct (root c).
    - by intros [= <- _].
    - intros H. apply bind_ok_inv in H as (sudo & s1 & _ & H).
      apply bind_ok_inv in H as (user & s2 & _ & H). by injection H as <- _. }
  unfold instantiate. destruct c; try apply Hbase.
  intros H. apply bind_ok_inv in H as (? & s1 & _ & H). by eapply Hbase.
Qed.

Lemma instantiate_sudo X c opts s st s' sudo user :
  instantiate X c opts s = (Ok st, s') -> self_sh st = Some (sudo, user) ->
  exists w, ext_which X "sudo" w = Some sudo.
Proof.
  assert (Hbase : forall s s', InstallStep_init X c opts s = (Ok st, s') ->
            self_sh st = Some (sudo, user) -> exists w, ext_which X "sudo" w = Some sudo).
  { clear. intros s s'. unfold InstallStep_init. destruct (root c).
    - by intros [= <- _].
    - intros H. apply bind_ok_inv in H as (sudo' & s1 & Hs & H).
      apply bind_ok_inv in H as (user' & s2 & _ & H). injection H as <- _.
      simpl. intros [= -> ->]. exists (world s). unfold sh_resolve in Hs.
      destruct (ext_which X "sudo" (world s)); by simplify_eq. }
  unfold instantiate. destruct c; try apply Hbase.
  intros H. apply bind_ok_inv in H as (? & s1 & _ & H). by eapply Hbase.
Qed.

Lemma reach_inv X opts c s st s' :
  reach X opts c s = (Ok st, s') ->
  exists s1, instantiate X c opts (noting (EInstantiate c) s) = (Ok st, s1) /\
             always_run X st (noting (EAlwaysRun c) s1) = (Ok tt, s').
Proof.
  unfold reach. rewrite bind_emit. intros H.
  apply bind_ok_inv in H as (st' & s1 & Hi & H). rewrite bind_emit in H.
  apply bind_ok_inv in H as ([] & s2 & Ha & H). injection H as -> ->.
  by exists s1.
Qed.

Lemma reach_fields X opts c s st s' :
  reach X opts c s = (Ok st, s') -> cls st = c /\ options st = opts.
Proof. intros (s1 & Hi & _)%reach_inv. by eapply instantiate_fields. Qed.

Lemma reach_name X opts c s st s' :
  reach X opts c s = (Ok st, s') -> display_name st = class_name c.
Proof. intros [<- _]%reach_fields. done. Qed.

(** Building a step and running its hook records just that, plus prints. *)
Lemma emits_reach X (P : Event -> Prop) opts c :
  (forall line, P (EPrint line)) -> P (EInstantiate c) -> P (EAlwaysRun c) ->
  keeps (emits P) (reach X opts c).
Proof.
  intros HP H1 H2. unfold reach. frame.
  - by apply emits_instantiate.
  - by apply emits_always_run.
Qed.

(** ** Only the orchestrator calls [exit] *)

Section NeverExits.

Lemma never_exits_ret {A} (a : A) : never_exits (ret a).
Proof. by intros s c s'. Qed.

Lemma never_exits_raise {A} e : never_exits (@raise A e).
Proof. by intros s c s'. Qed.

Lemma never_exits_bind {A B} (m : M A) (k : A -> M B) :
  never_exits m -> (forall a, never_exits (k a)) -> never_exits (bind m k).
Proof.
  intros Hm Hk s c s'. unfold bind. specialize (Hm s).
  destruct (m s) as [[a|e|c'] s1]; [apply Hk|done|]. by destruct (Hm c' s1).
Qed.

Lemma never_exits_try_except {A} (m : M A) h :
  never_exits m -> (forall e k, h e = Some k -> never_exits k) ->
  never_exits (try_except m h).
Proof.
  intros Hm Hh s c s'. unfold try_except. specialize (Hm s).
  destruct (m s) as [[a|e|c'] s1]; [done| |by destruct (Hm c' s1)].
  destruct (h e) as [k|] eqn:E; [by eapply Hh|done].
Qed.

Lemma never_exits_try_finally {A} (m : M A) f :
  never_exits m -> never_exits f -> never_exits (try_finally m f).
Proof.
  intros Hm Hf s c s'. unfold try_finally. specialize (Hm s).
  destruct (m s) as [r s1]. specialize (Hf s1).
  destruct (f s1) as [[[]|e|c'] s2]; [|done|by destruct (Hf c' s2)].
  intros [= -> ->]. by destruct (Hm c s1).
Qed.

End NeverExits.

Ltac never_exits_leaf :=
  let s := fresh "s" in let c := fresh "c" in let s' := fresh "s'" in
  intros s c s';
  unfold get_world, put_world, emit, py_print, path_exists, read_file, write_file,
    chdir, setenv, getenv, listdir, sh_resolve, sh_exec, run_python, emit;
  repeat match goal with
         | |- context [match ?x with _ => _ end] => destruct x
         end; done.

Ltac never_exits :=
  repeat first
    [ apply never_exits_ret | apply never_exits_raise
    | apply never_exits_bind; [ | intros ? ]
    | apply never_exits_try_finally
    | apply never_exits_try_except; [ | frame_handler ]
    | match goal with
      | |- never_exits (match ?x with _ => _ end) => destruct x
      | |- never_exits (if ?x then _ else _) => destruct x
      | |- never_exits (let _ := _ in _) => cbv zeta
      end
    | solve [ never_exits_leaf ] ].

Section MethodsNeverExit.

Context (X : External).

Lemma never_exits_instantiate c opts : never_exits (instantiate X c opts).
Proof. unfold_script. destruct c; simpl; never_exits. Qed.

Lemma never_exits_always_run st : never_exits (always_run X st).
Proof. unfold_script. destruct (cls st); never_exits. Qed.

Lemma never_exits_already_satisfied st : never_exits (already_satisfied X st).
Proof. unfold_script. destruct (cls st); never_exits. Qed.

Lemma never_exits_setup st : never_exits (setup X st).
Proof. unfold_script. destruct (cls st); never_exits. Qed.

End MethodsNeverExit.
(** ** One turn of the loop *)

Lemma trace_noting e s : trace (noting e s) = trace s ++ [e].
Proof. done. Qed.

Lemma emits_In (P : Event -> Prop) s s' e : emits P s s' -> In e (trace s) -> In e (trace s').
Proof. intros [l [-> _]] H. apply in_or_app. by left. Qed.

Lemma In_noting e s : In e (trace (noting e s)).
Proof. rewrite trace_noting. apply in_or_app. right. by left. Qed.

Lemma setups_app t1 t2 : setups (t1 ++ t2) = setups t1 ++ setups t2.
Proof. unfold setups. apply omap_app. Qed.

(** Events that are no call of [setup] add nothing to [setups]. *)
Lemma emits_setups s s' :
  emits (fun e => forall c, e <> ESetup c) s s' -> setups (trace s') = setups (trace s).
Proof.
  intros [l [-> Hl]]. rewrite setups_app.
  assert (setups l = []) as ->; [|by rewrite app_nil_r].
  induction Hl as [|e l He _ IH]; [done|].
  unfold setups in *. simpl. destruct e; try done. by destruct (He c).
Qed.

Lemma emits_no_setup_of c s s' :
  emits (fun e => e <> ESetup c) s s' ->
  ~ In c (setups (trace s)) -> ~ In c (setups (trace s')).
Proof.
  intros [l [-> Hl]] Hs. rewrite setups_app. intros [H|H]%in_app_or; [done|].
  clear Hs. induction Hl as [|e l He _ IH]; [done|].
  unfold setups in *. simpl in H. destruct e; try by apply IH.
  destruct H as [->|H]; [done|by apply IH].
Qed.

Section Turn.

Context (X : External) (opts : Options).

(** A step that passes the skip test goes no further. *)
Lemma conclude_skipped st s :
  str_in (display_name st) (skip opts) = true -> conclude X opts st s = (Ok tt, s).
Proof. intros H. unfold conclude. by rewrite H. Qed.

(** A satisfied step that is not forced goes no further than its probe. *)
Lemma conclude_satisfied st s s1 :
  str_in (display_name st) (skip opts) = false ->
  str_in (display_name st) (force opts) = false ->
  already_satisfied X st (noting (EProbe (cls st)) s) = (Ok true, s1) ->
  conclude X opts st s = (Ok tt, s1).
Proof.
  intros Hs Hf Hp. unfold conclude. rewrite Hs, bind_emit.
  rewrite (bind_ok _ _ _ _ _ Hp). by rewrite Hf.
Qed.

(** The guarded call of [setup] records the call and returns or raises. *)
Lemma guarded_setup_outcome st s :
  exists r s1, guarded_setup X st s = (r, s1) /\ (forall c, r <> Exit c) /\
               In (ESetup (cls st)) (trace s1).
Proof.
  unfold guarded_setup. rewrite bind_emit. unfold try_except.
  pose proof (emits_setup X (fun _ => True) (fun _ => I) st (noting (ESetup (cls st)) s)) as Hk.
  pose proof (never_exits_setup X st (noting (ESetup (cls st)) s)) as Hn.
  pose proof (In_noting (ESetup (cls st)) s) as Hin.
  destruct (setup X st (noting (ESetup (cls st)) s)) as [[[]|e|c] s3] eqn:E; simpl in Hk.
  - eexists _, _. split; [done|]. split; [done|]. by eapply emits_In.
  - destruct e; try (eexists _, _; split; [done|]; split; [done|by eapply emits_In]).
    eexists _, _. split; [done|]. split; [done|].
    simpl. apply in_or_app. left. by eapply emits_In.
  - by destruct (Hn c s3).
Qed.

(** A forced step that is not skipped has its [setup] called whatever
    the probe said, and the turn ends the run with status 1. *)
Lemma conclude_forced st s b s1 :
  str_in (display_name st) (skip opts) = false ->
  str_in (display_name st) (force opts) = true ->
  already_satisfied X st (noting (EProbe (cls st)) s) = (Ok b, s1) ->
  exists r s2, conclude X opts st s = (r, s2) /\
               (r = Exit 1 \/ exists e, r = Raise e) /\
               In (ESetup (cls st)) (trace s2).
Proof.
  intros Hs Hf Hp. unfold conclude. rewrite Hs, bind_emit.
  rewrite (bind_ok _ _ _ _ _ Hp), Hf, andb_false_r.
  unfold py_print. rewrite bind_emit.
  destruct (guarded_setup_outcome st (noting (EPrint (display_doing st +:+ "...")) s1))
    as (r & s2 & Hg & Hr & Hin).
  unfold bind at 1. rewrite Hg. destruct r as [[]|e|c].
  - unfold after_setup. rewrite Hf. eexists _, _. split; [done|]. split; [by left|done].
  - eexists _, _. split; [done|]. split; [right; eauto|done].
  - by destruct (Hr c).
Qed.

(** A turn that returns normally was skipped or not forced. *)
Lemma conclude_ok_unforced st s s' :
  conclude X opts st s = (Ok tt, s') ->
  str_in (display_name st) (skip opts) = true \/
  str_in (display_name st) (force opts) = false.
Proof.
  unfold conclude. destruct (str_in (display_name st) (skip opts)); [by left|].
  destruct (str_in (display_name st) (force opts)) eqn:Hf; [|by right].
  rewrite bind_emit. intros (b & s1 & _ & H)%bind_ok_inv.
  rewrite andb_false_r in H.
  apply bind_ok_inv in H as (? & s2 & _ & H).
  apply bind_ok_inv in H as (? & s3 & _ & H).
  unfold after_setup in H. by rewrite Hf in H.
Qed.

(** What a turn records besides prints: the probes and the guarded
    call of [setup] of its own step. *)
Lemma emits_conclude (P : Event -> Prop) st :
  (forall line, P (EPrint line)) -> P (EProbe (cls st)) -> P (ESetup (cls st)) ->
  keeps (emits P) (conclude X opts st).
Proof.
  intros HP H1 H2. unfold conclude, guarded_setup, after_setup. frame.
  all: first [ by apply emits_already_satisfied | by apply emits_setup
             | by apply emits_print_troubleshooting ].
Qed.

(** A skipped step: nothing of the turn is a call of its [setup]. *)
Lemma emits_conclude_skipped (P : Event -> Prop) st :
  str_in (display_name st) (skip opts) = true -> keeps (emits P) (conclude X opts st).
Proof. intros H s. rewrite conclude_skipped by done. reflexivity. Qed.

End Turn.

(** ** The loop *)

Section Loop.

Context (X : External) (opts : Options).

Lemma run_step_reach c s st s1 :
  reach X opts c s = (Ok st, s1) -> run_step X opts c s = conclude X opts st s1.
Proof. intros H. unfold run_step. by rewrite (bind_ok _ _ _ _ _ H). Qed.

Lemma for_steps_continue c rest s s1 :
  run_step X opts c s = (Ok tt, s1) ->
  for_steps X opts (c :: rest) s = for_steps X opts rest s1.
Proof. intros H. simpl. by rewrite (bind_ok _ _ _ _ _ H). Qed.

(** A turn that raises or exits ends the loop there: no later step is
    built. *)
Lemma for_steps_stop c rest s r s1 :
  run_step X opts c s = (r, s1) -> r <> Ok tt ->
  for_steps X opts (c :: rest) s = (r, s1).
Proof.
  intros H Hr. simpl. unfold bind. rewrite H. destruct r as [[]|e|code]; done.
Qed.

Lemma for_steps_ok_inv c rest s s' :
  for_steps X opts (c :: rest) s = (Ok tt, s') ->
  exists s1, run_step X opts c s = (Ok tt, s1) /\ for_steps X opts rest s1 = (Ok tt, s').
Proof. simpl. intros ([] & s1 & H1 & H2)%bind_ok_inv. by exists s1. Qed.

(** A loop that runs to its end met no forced step it did not skip. *)
Lemma for_steps_ok_unforced steps s s' c :
  for_steps X opts steps s = (Ok tt, s') -> In c steps ->
  str_in (class_name c) (skip opts) = true \/ str_in (class_name c) (force opts) = false.
Proof.
  revert s. induction steps as [|c' rest IH]; intros s H Hin; [done|].
  apply for_steps_ok_inv in H as (s1 & H1 & H2).
  destruct Hin as [->|Hin]; [|by eapply IH].
  unfold run_step in H1. apply bind_ok_inv in H1 as (st & s0 & Hr & Hc).
  rewrite <- (reach_name _ _ _ _ _ _ Hr). by eapply conclude_ok_unforced.
Qed.

(** The turn of a step records nothing of another step's [setup], and
    nothing of its own when the step is skipped. *)
Lemma emits_run_step (P : Event -> Prop) c :
  (forall line, P (EPrint line)) -> P (EInstantiate c) -> P (EAlwaysRun c) ->
  P (EProbe c) -> (str_in (class_name c) (skip opts) = false -> P (ESetup c)) ->
  keeps (emits P) (run_step X opts c).
Proof.
  intros HP H1 H2 H3 H4 s. unfold run_step, bind.
  pose proof (emits_reach X P opts c HP H1 H2 s) as Hr.
  destruct (reach X opts c s) as [[st|e|code] s1] eqn:E; [|done..].
  simpl in Hr. etransitivity; [exact Hr|].
  destruct (reach_fields _ _ _ _ _ _ E) as [Hc _].
  destruct (str_in (class_name c) (skip opts)) eqn:Hs.
  - apply emits_conclude_skipped. unfold display_name. by rewrite Hc.
  - apply emits_conclude; rewrite ?Hc; auto.
Qed.

Lemma emits_for_steps (P : Event -> Prop) steps :
  (forall line, P (EPrint line)) ->
  (forall c, In c steps -> P (EInstantiate c) /\ P (EAlwaysRun c) /\ P (EProbe c) /\
     (str_in (class_name c) (skip opts) = false -> P (ESetup c))) ->
  keeps (emits P) (for_steps X opts steps).
Proof.
  intros HP. induction steps as [|c rest IH]; intros H; simpl.
  - frame.
  - apply keeps_bind; [typeclasses eauto| |].
    + destruct (H c) as (?&?&?&?); [by left|]. by apply emits_run_step.
    + intros _. apply IH. intros c' Hc'. apply H. by right.
Qed.

End Loop.

Lemma skip_set_os_version o v opts : skip (set_os_version o v opts) = skip opts.
Proof. done. Qed.

Lemma force_set_os_version o v opts : force (set_os_version o v opts) = force opts.
Proof. done. Qed.

Lemma run_steps_detected X temp opts s o v :
  os_and_version (world s) = Ok (o, v) ->
  run_steps X temp opts s = for_steps X (set_os_version o v opts) (get_steps o v) s.
Proof.
  intros H. unfold run_steps, bind, get_os_and_version. by rewrite H.
Qed.

Lemma run_steps_undetected X temp opts s e :
  os_and_version (world s) = Raise e -> run_steps X temp opts s = (Raise e, s).
Proof.
  intros H. unfold run_steps, bind, get_os_and_version. by rewrite H.
Qed.

Lemma os_and_version_never_exits w c : os_and_version w <> Exit c.
Proof.
  unfold os_and_version. repeat case_match; done.
Qed.

(** What a whole run records. *)
Lemma emits_run_steps X (P : Event -> Prop) temp opts :
  (forall line, P (EPrint line)) ->
  (forall c, P (EInstantiate c) /\ P (EAlwaysRun c) /\ P (EProbe c) /\
     (str_in (class_name c) (skip opts) = false -> P (ESetup c))) ->
  keeps (emits P) (run_steps X temp opts).
Proof.
  intros HP H s.
  destruct (os_and_version (world s)) as [[o v]|e|c] eqn:E.
  - rewrite (run_steps_detected _ _ _ _ _ _ E). by apply emits_for_steps.
  - rewrite (run_steps_undetected _ _ _ _ _ E). reflexivity.
  - by destruct (os_and_version_never_exits (world s) c).
Qed.


(** ** Skipping, forcing and running twice *)

(** C3: skip precedence.  A step whose name is listed in the skip text
    never has its [setup] called anywhere in a run, and once the step is
    built and its hook has run, its turn is over, in the state the hook
    left, whatever its probe would have said. *)
Theorem skip_precedence X temp opts c :
  In (class_name c) (names_of (skip opts)) ->
  (forall s, ~ In c (setups (trace s)) ->
             ~ In c (setups (trace (snd (run_steps X temp opts s))))) /\
  (forall o v s step s1,
     reach X (set_os_version o v opts) c s = (Ok step, s1) ->
     run_step X (set_os_version o v opts) c s = (Ok tt, s1) /\
     setups (trace s1) = setups (trace s)).
Proof.
  intros Hin%names_of_str_in. split.
  - intros s. apply emits_no_setup_of. apply emits_run_steps; [done|].
    intros c'. repeat split; try done.
    intros Hs [= ->]. congruence.
  - intros o v s step s1 Hr. split.
    + rewrite (run_step_reach _ _ _ _ _ _ Hr). apply conclude_skipped.
      by rewrite (reach_name _ _ _ _ _ _ Hr).
    + apply emits_setups.
      pose proof (emits_reach X (fun e => forall c, e <> ESetup c)
                    (set_os_version o v opts) c) as H.
      specialize (H ltac:(done) ltac:(done) ltac:(done) s). by rewrite Hr in H.
Qed.
(** C10: skip beats force.  A step named in both the skip text and the
    force text is built, has its hook run, and is then skipped: its turn
    returns normally without probing or calling [setup], and the loop goes
    on with the next step of the catalog. *)
Theorem skip_beats_force X opts c rest s step s1 :
  In (class_name c) (names_of (skip opts)) ->
  In (class_name c) (names_of (force opts)) ->
  reach X opts c s = (Ok step, s1) ->
  run_step X opts c s = (Ok tt, s1) /\
  In (EAlwaysRun c) (trace s1) /\
  emits (fun e => e = EInstantiate c \/ e = EAlwaysRun c \/ is_print e) s s1 /\
  setups (trace s1) = setups (trace s) /\
  for_steps X opts (c :: rest) s = for_steps X opts rest s1.
Proof.
  intros Hs%names_of_str_in _ Hr.
  assert (Hrun : run_step X opts c s = (Ok tt, s1)).
  { rewrite (run_step_reach _ _ _ _ _ _ Hr). apply conclude_skipped.
    by rewrite (reach_name _ _ _ _ _ _ Hr). }
  split; [done|]. split; [|split; [|split]].
  - apply reach_inv in Hr as (s0 & _ & Ha).
    pose proof (emits_always_run X (fun _ => True) (fun _ => I) step
                  (noting (EAlwaysRun c) s0)) as H.
    rewrite Ha in H. eapply emits_In; [exact H|]. apply In_noting.
  - pose proof (emits_reach X (fun e => e = EInstantiate c \/ e = EAlwaysRun c \/ is_print e)
                  opts c) as H.
    specialize (H ltac:(by right; right) ltac:(by left) ltac:(by right; left) s).
    by rewrite Hr in H.
  - apply emits_setups.
    pose proof (emits_reach X (fun e => forall c, e <> ESetup c) opts c) as H.
    specialize (H ltac:(done) ltac:(done) ltac:(done) s). by rewrite Hr in H.
  - by apply for_steps_continue.
Qed.
Lemma setups_reach X opts c s :
  setups (trace (snd (reach X opts c s))) = setups (trace s).
Proof.
  apply emits_setups.
  by apply (emits_reach X (fun e => forall c, e <> ESetup c) opts c).
Qed.

Lemma setups_probe X st s :
  setups (trace (snd (already_satisfied X st (noting (EProbe (cls st)) s)))) =
  setups (trace s).
Proof.
  transitivity (setups (trace (noting (EProbe (cls st)) s))).
  - apply emits_setups. by apply (emits_already_satisfied X (fun e => forall c, e <> ESetup c)).
  - rewrite trace_noting, setups_app. simpl. by rewrite app_nil_r.
Qed.

(** ** Running twice *)

(** The ways a turn returns from the skip test on: the step is skipped,
    or it is not forced and was found satisfied. *)
Lemma conclude_ok_inv X opts st sa b :
  conclude X opts st sa = (Ok tt, b) ->
  str_in (display_name st) (skip opts) = true /\ b = sa \/
  str_in (display_name st) (skip opts) = false /\
  str_in (display_name st) (force opts) = false /\ verified X st sa b.
Proof.
  unfold conclude. destruct (str_in (display_name st) (skip opts)).
  { intros [= <-]. by left. }
  rewrite bind_emit. intros (b0 & s1 & Hp & H)%bind_ok_inv. right. split; [done|].
  destruct (str_in (display_name st) (force opts)) eqn:Hf.
  - rewrite andb_false_r in H.
    apply bind_ok_inv in H as (? & s2 & _ & H).
    apply bind_ok_inv in H as (? & s3 & _ & H).
    unfold after_setup in H. by rewrite Hf in H.
  - split; [done|]. destruct b0.
    + injection H as <-. by left.
    + simpl in H. unfold py_print in H. rewrite bind_emit in H.
      apply bind_ok_inv in H as ([] & sp & Hg & H).
      unfold after_setup in H. rewrite Hf, bind_emit in H.
      apply bind_ok_inv in H as (b1 & s4 & Hp' & H). destruct b1.
      * injection H as <-. right. by exists s1, sp.
      * apply bind_ok_inv in H as (? & s5 & _ & H).
        by apply bind_ok_inv in H as (? & s6 & _ & H).
Qed.

(** Two loops side by side.  The first runs to its end; the second
    starts on a machine related to the first one's, and the relation is
    such that a step built in the first is built alike in the second,
    and a step the first found satisfied (at once or after its [setup])
    is found satisfied by the second.  Then the second loop calls no
    [setup]. *)
Lemma for_steps_again X opts (later : World -> World -> Prop) steps :
  (forall c a b st sa,
     In c steps -> later (world a) (world b) ->
     reach X opts c a = (Ok st, sa) ->
     exists sb, reach X opts c b = (Ok st, sb) /\ later (world sa) (world sb) /\
       forall p', verified X st sa p' ->
         exists b', already_satisfied X st (noting (EProbe c) sb) = (Ok true, b') /\
                    later (world p') (world b')) ->
  forall a b a', later (world a) (world b) ->
    for_steps X opts steps a = (Ok tt, a') ->
    setups (trace (snd (for_steps X opts steps b))) = setups (trace b).
Proof.
  induction steps as [|c rest IH]; intros Hturn a b a' Hab Hrun; [done|].
  apply for_steps_ok_inv in Hrun as (a1 & H1 & Hrest).
  unfold run_step in H1. apply bind_ok_inv in H1 as (st & sa & Hr & Hc).
  destruct (Hturn c a b st sa (or_introl eq_refl) Hab Hr) as (sb & Hrb & Hlater & Hprobe).
  destruct (reach_fields _ _ _ _ _ _ Hr) as [Hcls _].
  pose proof (setups_reach X opts c b) as Hsb. rewrite Hrb in Hsb. simpl in Hsb.
  assert (Hnext : forall a2 b2, later (world a2) (world b2) ->
            for_steps X opts rest a2 = (Ok tt, a') ->
            setups (trace (snd (for_steps X opts rest b2))) = setups (trace b2)).
  { intros a2 b2. apply IH. intros c' a0 b0 st0 sa0 Hin. apply Hturn. by right. }
  apply conclude_ok_inv in Hc as [[Hskip ->]|(Hskip & Hforce & Hv)].
  - rewrite (for_steps_continue _ _ _ _ _ sb).
    + by rewrite (Hnext sa sb Hlater Hrest).
    + rewrite (run_step_reach _ _ _ _ _ _ Hrb). by apply conclude_skipped.
  - destruct (Hprobe a1 Hv) as (b' & Hp & Hl').
    pose proof (setups_probe X st sb) as Hsp. rewrite Hcls, Hp in Hsp. simpl in Hsp.
    rewrite (for_steps_continue _ _ _ _ _ b').
    + rewrite (Hnext a1 b' Hl' Hrest). congruence.
    + rewrite (run_step_reach _ _ _ _ _ _ Hrb).
      apply conclude_satisfied; [done|done|by rewrite Hcls].
Qed.

(** C1, amended: idempotence of a completed run.  Let the first run
    return normally, and let what it established persist: with respect
    to some relation between the machines of the first run and those of
    the second, holding between the two starting machines, every step
    built in the first run is built alike in the second, and every step
    whose turn in the first run found it satisfied, at the first probe
    or at the probe after its [setup], is found satisfied by the probe
    of the second run.  Then the second run calls no [setup] at all. *)
Theorem second_run_calls_no_setup X temp opts s0 s1 (later : World -> World -> Prop) :
  run_steps X temp opts s0 = (Ok tt, s1) ->
  os_and_version (world s1) = os_and_version (world s0) ->
  later (world s0) (world s1) ->
  (forall o v c a b st sa,
     os_and_version (world s0) = Ok (o, v) -> In c (get_steps o v) ->
     later (world a) (world b) ->
     reach X (set_os_version o v opts) c a = (Ok st, sa) ->
     exists sb, reach X (set_os_version o v opts) c b = (Ok st, sb) /\
       later (world sa) (world sb) /\
       forall p', verified X st sa p' ->
         exists b', already_satisfied X st (noting (EProbe c) sb) = (Ok true, b') /\
                    later (world p') (world b')) ->
  forall tr, setups (trace (snd (run_steps X temp opts (mkSt (world s1) tr)))) = setups tr.
Proof.
  intros Hrun Hos Hinit Hturn tr.
  destruct (os_and_version (world s0)) as [[o v]|e|c] eqn:E.
  - rewrite (run_steps_detected _ _ _ _ _ _ E) in Hrun.
    rewrite (run_steps_detected _ _ _ _ o v) by done.
    apply (for_steps_again X _ later _ (fun c a b st sa => Hturn o v c a b st sa eq_refl)
             s0 (mkSt (world s1) tr) s1 Hinit Hrun).
  - by rewrite (run_steps_undetected _ _ _ _ _ E) in Hrun.
  - by destruct (os_and_version_never_exits (world s0) c).
Qed.

(** That the first run returned does not suffice: on a machine where a
    later step undoes what an earlier one set up, the second run calls
    that [setup] again. *)
Lemma completed_run_undone :
  let X := Sim.resetting_machine Sim.healthy in
  let opts := Sim.options "" "" in
  let first := run_steps X Sim.temp_dir opts (Sim.start Sim.linux) in
  let second := run_steps X Sim.temp_dir opts (Sim.start (world (snd first))) in
  fst first = Ok tt /\
  setups (trace (snd second)) = [UpdateHostsFile].
Proof. intros X opts first second. split; by_evaluation. Qed.

Lemma world_noting_all evs s : world (noting_all evs s) = world s.
Proof. revert s. induction evs as [|e evs IH]; intros s; [done|]. simpl. by rewrite IH. Qed.

Lemma world_noting e s : world (noting e s) = world s.
Proof. done. Qed.

Lemma world_mkSt w tr : world (mkSt w tr) = w.
Proof. done. Qed.

Ltac same_machine :=
  repeat first [rewrite world_noting_all | rewrite world_noting | rewrite world_mkSt];
  reflexivity.

(** C1 as stated fails: with a step forced, each run calls its [setup]
    again and stops there with status 1. *)
Lemma forced_rerun_calls_setup_again :
  let X := Sim.machine Sim.healthy in
  let opts := Sim.options "UpdateHostsFile" "" in
  let first := run_steps X Sim.temp_dir opts (Sim.start Sim.linux) in
  let second := run_steps X Sim.temp_dir opts (Sim.start (world (snd first))) in
  fst first = Exit 1 /\
  setups (trace (snd second)) = [UpdateHostsFile] /\
  setups (trace (snd second)) <> [].
Proof. vm_compute. repeat split. discriminate. Qed.

(** *** The simulated machine: the recorded user stays *)

Global Instance same_user_preorder : PreOrder same_user.
Proof.
  split.
  - by intros s.
  - intros a b c H1 H2. unfold same_user in *. congruence.
Qed.

Lemma same_user_write_file p c : keeps same_user (write_file p c).
Proof.
  intros s. unfold write_file.
  by destruct (fs (world s) !! abspath (world s) p) as [[]|].
Qed.

Lemma same_user_chdir p : keeps same_user (chdir p).
Proof.
  intros s. unfold chdir.
  by destruct (fs (world s) !! abspath (world s) p) as [[]|].
Qed.

Lemma same_user_setenv : keeps same_user (setenv variable value).
Proof. intros s. unfold same_user, setenv. simpl. by rewrite lookup_insert_ne. Qed.

Lemma same_user_sh_exec X verbose argv stdin :
  keeps same_user (sh_exec X verbose argv stdin).
Proof.
  intros s. unfold sh_exec.
  by destruct (ext_run X verbose argv stdin (world s)) as [[] f].
Qed.

Lemma same_user_emit e : keeps same_user (emit e).
Proof. by intros s. Qed.

Lemma same_user_py_print line : keeps same_user (py_print line).
Proof. by intros s. Qed.

Lemma same_user_activate_once cfg text path :
  keeps same_user (run_python (Sim.machine_with Sim.activate_once cfg) text path).
Proof.
  intros s. unfold run_python, same_user. simpl. unfold Sim.activate_once.
  destruct (starts_with _ _); simpl; [done|]. by rewrite lookup_insert_ne.
Qed.

#[export] Hint Resolve same_user_write_file same_user_chdir same_user_setenv
  same_user_sh_exec same_user_emit same_user_py_print same_user_activate_once : frame.

Section SimUser.

Context (cfg : Sim.Config).

Let X := Sim.machine_with Sim.activate_once cfg.

Lemma same_user_instantiate c opts : keeps same_user (instantiate X c opts).
Proof. unfold_script. destruct c; simpl; frame. Qed.

Lemma same_user_always_run st : keeps same_user (always_run X st).
Proof. unfold_script. destruct (cls st); frame. Qed.

Lemma same_user_already_satisfied st : keeps same_user (already_satisfied X st).
Proof. unfold_script. destruct (cls st); frame. Qed.

Lemma same_user_setup st : keeps same_user (setup X st).
Proof. unfold_script. destruct (cls st); frame. Qed.

Lemma same_user_reach opts c : keeps same_user (reach X opts c).
Proof.
  unfold reach. frame; [apply same_user_instantiate|apply same_user_always_run].
Qed.

Lemma same_user_guarded_setup st : keeps same_user (guarded_setup X st).
Proof. unfold guarded_setup. frame. apply same_user_setup. Qed.

End SimUser.

Lemma same_user_noting e s : same_user s (noting e s).
Proof. done. Qed.

(** The step the healthy machine builds for the user [dev]. *)
Lemma sim_reach_built opts c a st sa :
  reach (Sim.machine_with Sim.activate_once Sim.healthy) opts c a = (Ok st, sa) ->
  environ (world a) !! "SUDO_USER" = Some "dev" ->
  st = Sim.built opts c.
Proof.
  intros (s1 & Hi & _)%reach_inv Hu.
  assert (Hbase : forall s s', environ (world s) !! "SUDO_USER" = Some "dev" ->
            InstallStep_init (Sim.machine_with Sim.activate_once Sim.healthy) c opts s =
              (Ok st, s') -> st = Sim.built opts c).
  { clear. intros s s' Hu. unfold InstallStep_init, Sim.built. destruct (root c).
    - by intros [= <-].
    - unfold bind, sh_resolve, get_regular_username, getenv, ret. simpl.
      rewrite Hu. by intros [= <-]. }
  revert Hi. unfold instantiate. destruct c; try (apply Hbase; exact Hu).
  intros (? & s2 & Hcd & H)%bind_ok_inv. apply (Hbase s2 s1); [|done].
  revert Hcd. unfold chdir. simpl.
  destruct (fs (world a) !! _) as [[]|]; [done| |done]. intros ?. by simplify_eq.
Qed.

(** On the healthy machine, when the machine [W] is one that building
    and probing a step leave as it is and on which the probe answers
    yes, a turn on [W] repeats what any turn of that step did. *)
Lemma sim_turn_again opts c (W : World) :
  let X := Sim.machine_with Sim.activate_once Sim.healthy in
  (forall tr, fst (reach X opts c (mkSt W tr)) = Ok (Sim.built opts c)) ->
  (forall tr, world (snd (reach X opts c (mkSt W tr))) = W) ->
  (forall tr, fst (already_satisfied X (Sim.built opts c) (mkSt W tr)) = Ok true) ->
  (forall tr, world (snd (already_satisfied X (Sim.built opts c) (mkSt W tr))) = W) ->
  forall a b st sa,
    environ (world a) !! "SUDO_USER" = Some "dev" -> world b = W ->
    reach X opts c a = (Ok st, sa) ->
    exists sb, reach X opts c b = (Ok st, sb) /\
      (environ (world sa) !! "SUDO_USER" = Some "dev" /\ world sb = W) /\
      forall p', verified X st sa p' ->
        exists b', already_satisfied X st (noting (EProbe c) sb) = (Ok true, b') /\
                   (environ (world p') !! "SUDO_USER" = Some "dev" /\ world b' = W).
Proof.
  intros X R1 R2 P1 P2 a [wb trb] st sa Hu Hb Hr. simpl in Hb. subst wb.
  pose proof (sim_reach_built _ _ _ _ _ Hr Hu) as ->.
  assert (Hsa : environ (world sa) !! "SUDO_USER" = Some "dev").
  { pose proof (same_user_reach Sim.healthy opts c a) as H. fold X in H.
    rewrite Hr in H. unfold same_user in H. simpl in H. congruence. }
  specialize (R1 trb). specialize (R2 trb).
  destruct (reach X opts c (mkSt W trb)) as [r [wsb trsb]]. simpl in R1, R2. subst r wsb.
  exists (mkSt W trsb). split; [done|]. split; [done|].
  intros p' Hv.
  change (noting (EProbe c) (mkSt W trsb)) with (mkSt W (trsb ++ [EProbe c])).
  exists (snd (already_satisfied X (Sim.built opts c) (mkSt W (trsb ++ [EProbe c])))).
  split; [apply pair_of_fst, P1|]. split; [|apply P2].
  assert (Hprobe : forall s r s', already_satisfied X (Sim.built opts c) s = (r, s') ->
            environ (world s') !! "SUDO_USER" = environ (world s) !! "SUDO_USER").
  { intros s r s' H.
    pose proof (same_user_already_satisfied Sim.healthy (Sim.built opts c) s) as H'.
    fold X in H'. by rewrite H in H'. }
  destruct Hv as [Hp|(s3 & sp & Hp1 & Hg & Hp2)].
  - rewrite (Hprobe _ _ _ Hp). done.
  - rewrite (Hprobe _ _ _ Hp2). simpl.
    pose proof (same_user_guarded_setup Sim.healthy (Sim.built opts c)
                  (noting (EPrint (display_doing (Sim.built opts c) +:+ "...")) s3)) as H'.
    fold X in H'. rewrite Hg in H'. unfold same_user in H'. simpl in H'.
    rewrite H', (Hprobe _ _ _ Hp1). done.
Qed.

Lemma second_run_calls_no_setup_witness :
  let X := Sim.machine_with Sim.activate_once Sim.healthy in
  let opts := Sim.options "" "" in
  let first := run_steps X Sim.temp_dir opts (Sim.start Sim.linux) in
  fst first = Ok tt /\
  setups (trace (snd first)) =
    [AptDependenciesInstall; UpdateHostsFile; GitClone; VirtualEnv;
     ProductionEnvironmentVariable; SetupDatabase; RunServerAlias] /\
  setups (trace (snd (run_steps X Sim.temp_dir opts (mkSt (world (snd first)) [])))) = [].
Proof.
  intros X opts first.
  assert (Hfirst : fst first = Ok tt) by by_evaluation.
  assert (Hpair : first = (Ok tt, snd first)) by (by apply pair_of_fst).
  assert (Hos : os_and_version (world (snd first)) =
                os_and_version (world (Sim.start Sim.linux))) by by_evaluation.
  assert (Hlinux : os_and_version (world (Sim.start Sim.linux)) = Ok ("linux", None))
    by by_evaluation.
  assert (Huser : environ (world (Sim.start Sim.linux)) !! "SUDO_USER" = Some "dev")
    by by_evaluation.
  set (opts' := set_os_version "linux" None opts).
  assert (Hturn : forall c, In c (get_steps "linux" None) ->
    (forall tr, fst (reach X opts' c (mkSt (world (snd first)) tr)) =
                Ok (Sim.built opts' c)) /\
    (forall tr, world (snd (reach X opts' c (mkSt (world (snd first)) tr))) =
                world (snd first)) /\
    (forall tr, fst (already_satisfied X (Sim.built opts' c)
                       (mkSt (world (snd first)) tr)) = Ok true) /\
    (forall tr, world (snd (already_satisfied X (Sim.built opts' c)
                              (mkSt (world (snd first)) tr))) = world (snd first))).
  { intros c Hc. simpl in Hc.
    repeat (destruct Hc as [<-|Hc];
            [split; [|split; [|split]]; intros tr;
             [by_evaluation|by_decision|by_evaluation|by_decision]|]).
    destruct Hc. }
  split; [exact Hfirst|]. split; [by_evaluation|].
  apply (second_run_calls_no_setup X Sim.temp_dir opts (Sim.start Sim.linux) (snd first)
           (fun w w' => environ w !! "SUDO_USER" = Some "dev" /\ w' = world (snd first))
           Hpair Hos (conj Huser eq_refl)).
  intros o v c a b st sa Ho Hc [Hu Hb] Hr.
  rewrite Hlinux in Ho. injection Ho as <- <-.
  destruct (Hturn c Hc) as (R1 & R2 & P1 & P2).
  clear Hturn Hfirst Hpair Hos Hlinux Huser.
  revert R1 R2 P1 P2 Hb. generalize (world (snd first)). intros W R1 R2 P1 P2 Hb.
  exact (sim_turn_again opts' c W R1 R2 P1 P2 a b st sa Hu Hb Hr).
Defined.

Lemma skip_precedence_witness :
  let X := Sim.machine Sim.healthy in
  let opts := Sim.options "" "GitClone,SetupDatabase" in
  let s := Sim.start Sim.linux in
  In (class_name GitClone) (names_of (skip opts)) /\
  ~ In GitClone (setups (trace (snd (run_steps X Sim.temp_dir opts s)))) /\
  run_step X (set_os_version "linux" None opts) GitClone s =
    (Ok tt, noting_all (Sim.hook_events GitClone) s) /\
  setups (trace (noting_all (Sim.hook_events GitClone) s)) = setups (trace s).
Proof.
  intros X opts s.
  assert (Hin : In (class_name GitClone) (names_of (skip opts))) by (by left).
  destruct (skip_precedence X Sim.temp_dir opts GitClone Hin) as [Hnever Hturn].
  split; [exact Hin|]. split.
  - apply Hnever. intros [].
  - apply (Hturn "linux" None s (Sim.built (set_os_version "linux" None opts) GitClone)).
    by_evaluation.
Defined.

Lemma skip_beats_force_witness :
  let X := Sim.machine Sim.healthy in
  let opts := set_os_version "linux" None (Sim.options "GitClone" "GitClone") in
  let s := Sim.start Sim.linux in
  let s1 := noting_all (Sim.hook_events GitClone) s in
  In (class_name GitClone) (names_of (skip opts)) /\
  In (class_name GitClone) (names_of (force opts)) /\
  run_step X opts GitClone s = (Ok tt, s1) /\
  In (EAlwaysRun GitClone) (trace s1) /\
  emits (fun e => e = EInstantiate GitClone \/ e = EAlwaysRun GitClone \/ is_print e) s s1 /\
  setups (trace s1) = setups (trace s) /\
  for_steps X opts [GitClone; VirtualEnv] s = for_steps X opts [VirtualEnv] s1.
Proof.
  intros X opts s s1.
  assert (Hskip : In (class_name GitClone) (names_of (skip opts))) by (by left).
  assert (Hforce : In (class_name GitClone) (names_of (force opts))) by (by left).
  split; [exact Hskip|]. split; [exact Hforce|].
  apply (skip_beats_force X opts GitClone [VirtualEnv] s (Sim.built opts GitClone) s1 Hskip Hforce).
  by_evaluation.
Defined.

(** A forced step that is not skipped, once built and probed, has its
    [setup] called and ends the loop with status 1: the trace holds no
    event of a later step. *)
Lemma forced_step_ends_run X opts c rest s step s1 b s2 :
  str_in (class_name c) (skip opts) = false ->
  str_in (class_name c) (force opts) = true ->
  reach X opts c s = (Ok step, s1) ->
  already_satisfied X step (noting (EProbe c) s1) = (Ok b, s2) ->
  exists r s3, for_steps X opts (c :: rest) s = (r, s3) /\
    exit_status r = 1%Z /\ In (ESetup c) (trace s3) /\
    emits (fun e => e = EInstantiate c \/ e = EAlwaysRun c \/ e = EProbe c \/
                    e = ESetup c \/ is_print e) s s3.
Proof.
  intros Hs Hf Hr Hp.
  destruct (reach_fields _ _ _ _ _ _ Hr) as [Hc _].
  destruct (conclude_forced X opts step s1 b s2) as (r & s3 & Hcon & Hres & Hin).
  { unfold display_name. by rewrite Hc. }
  { unfold display_name. by rewrite Hc. }
  { by rewrite Hc. }
  assert (Hrun : run_step X opts c s = (r, s3)).
  { by rewrite (run_step_reach _ _ _ _ _ _ Hr). }
  exists r, s3. split; [|split; [|split]].
  - apply for_steps_stop; [done|]. by destruct Hres as [->|[e ->]].
  - by destruct Hres as [->|[e ->]].
  - by rewrite <- Hc.
  - pose proof (emits_run_step X opts
      (fun e => e = EInstantiate c \/ e = EAlwaysRun c \/ e = EProbe c \/
                e = ESetup c \/ is_print e) c) as H.
    specialize (H ltac:(by intros; right; right; right; right) ltac:(by left)
                  ltac:(by right; left) ltac:(by right; right; left)
                  ltac:(by intros; right; right; right; left) s).
    by rewrite Hrun in H.
Qed.

(** C2 fails on the code: the skip test is Python's [in] on the raw
    [--skip] text, a substring test.  With [--force=VirtualEnv
    --skip=VirtualEnvInstall] the step [VirtualEnv] is named in the force
    list and not in the skip list, yet it is skipped: its [setup] is not
    called and the run goes on to its end with status 0. *)
Theorem forced_step_skipped_by_substring :
  let X := Sim.machine Sim.healthy in
  let run := main X "VirtualEnv" "VirtualEnvInstall" false
               (Sim.start (Sim.provisioned X Sim.osx)) in
  names_of "VirtualEnv" = ["VirtualEnv"] /\
  names_of "VirtualEnvInstall" = ["VirtualEnvInstall"] /\
  str_in (class_name VirtualEnv) "VirtualEnvInstall" = true /\
  fst run = Ok tt /\
  exit_status (fst run) = 0%Z /\
  setups (trace (snd run)) = [] /\
  instantiations (trace (snd run)) =
    [XCodeInstall; HomebrewInstall; BrewDependenciesInstall; VirtualEnvInstall;
     UpdateHostsFile; GitClone; VirtualEnv; ProductionEnvironmentVariable;
     SetupDatabase; RunServerAlias; RunServer] /\
  probes (trace (snd run)) =
    [XCodeInstall; HomebrewInstall; BrewDependenciesInstall;
     UpdateHostsFile; GitClone; ProductionEnvironmentVariable;
     SetupDatabase; RunServerAlias; RunServer].
Proof. intros X run. repeat split; by_evaluation. Qed.

(** What the orchestrator does after a [setup] that raised
    [sh.ErrorReturnCode], for a step that passes neither the skip test nor
    the force test: it prints the captured stderr, probes once more, and
    goes on if the probe is true; if it is false it prints the failure
    line and the troubleshooting text and exits with status 1. *)
Lemma conclude_setup_failed X opts st s s1 err s2 :
  str_in (display_name st) (skip opts) = false ->
  str_in (display_name st) (force opts) = false ->
  already_satisfied X st (noting (EProbe (cls st)) s) = (Ok false, s1) ->
  setup X st (noting (ESetup (cls st)) (noting (EPrint (display_doing st +:+ "...")) s1)) =
    (Raise (ErrorReturnCode err), s2) ->
  conclude X opts st s =
    match already_satisfied X st (noting (EProbe (cls st)) (noting (EPrint err) s2)) with
    | (Ok true, s3) => (Ok tt, s3)
    | (Ok false, s3) =>
        (Exit 1, snd (print_troubleshooting st
                        (noting (EPrint ("ERROR: " +:+ display_name st +:+ " failed.")) s3)))
    | (Raise e, s3) => (Raise e, s3)
    | (Exit c, s3) => (Exit c, s3)
    end.
Proof.
  intros Hs Hf Hp Hsetup. unfold conclude. rewrite Hs, bind_emit.
  rewrite (bind_ok _ _ _ _ _ Hp), Hf.
  change (false && negb false) with false. cbv iota.
  unfold py_print. rewrite bind_emit.
  assert (Hg : guarded_setup X st (noting (EPrint (display_doing st +:+ "...")) s1) =
               (Ok tt, noting (EPrint err) s2)).
  { unfold guarded_setup. rewrite bind_emit. unfold try_except. by rewrite Hsetup. }
  rewrite (bind_ok _ _ _ _ _ Hg). unfold after_setup. rewrite Hf, bind_emit.
  unfold bind at 1.
  destruct (already_satisfied X st (noting (EProbe (cls st)) (noting (EPrint err) s2)))
    as [[[]|e|c] s3]; try done.
  cbv beta iota. unfold py_print. rewrite bind_emit. unfold bind.
  destruct (print_troubleshooting st _) as [[[]|e|c] s4] eqn:E; try done.
  - exfalso. revert E. unfold print_troubleshooting.
    destruct (display_troubleshooting st) as [t|]; [|done].
    destruct (nonempty t); [|done]. unfold py_print. by rewrite !bind_emit.
  - exfalso. revert E. unfold print_troubleshooting.
    destruct (display_troubleshooting st) as [t|]; [|done].
    destruct (nonempty t); [|done]. unfold py_print. by rewrite !bind_emit.
Qed.

(** C6 fails on the code through the same substring test, on the
    [--force] text.  With [--force=VirtualEnvInstall] on Linux the step
    [VirtualEnv] is not in the force list, yet after its [setup] raised the
    run exits at once: no second probe, no failure line.  Without the
    option the same machine gets the second probe and the failure line. *)
Theorem unforced_step_treated_as_forced :
  let X := Sim.machine (Sim.mkConfig [] ["virtualenv"]) in
  let run := main X "VirtualEnvInstall" "" false (Sim.start Sim.linux) in
  let plain := main X "" "" false (Sim.start Sim.linux) in
  names_of "VirtualEnvInstall" = ["VirtualEnvInstall"] /\
  str_in (class_name VirtualEnv) "VirtualEnvInstall" = true /\
  fst run = Exit 1 /\
  setups (trace (snd run)) =
    [AptDependenciesInstall; UpdateHostsFile; GitClone; VirtualEnv] /\
  probes (trace (snd run)) =
    [AptDependenciesInstall; AptDependenciesInstall; UpdateHostsFile; UpdateHostsFile;
     GitClone; GitClone; VirtualEnv] /\
  last (printed (trace (snd run))) = Some "virtualenv: failed" /\
  fst plain = Exit 1 /\
  probes (trace (snd plain)) =
    [AptDependenciesInstall; AptDependenciesInstall; UpdateHostsFile; UpdateHostsFile;
     GitClone; GitClone; VirtualEnv; VirtualEnv] /\
  last (printed (trace (snd plain))) = Some "ERROR: VirtualEnv failed.".
Proof. intros X run plain. repeat split; by_evaluation. Qed.

(** ** Probes that raise *)

(** The three version probes sit in a bare [except:] and always return. *)
Lemma version_probe_total X st prog flag s :
  exists b s', version_probe X st prog flag s = (Ok b, s').
Proof.
  unfold version_probe, try_except.
  pose proof (never_exits_bind (self_sh_call X st false prog [flag])
                (fun out => ret (truthy out))) as Hn.
  destruct ((let* out := self_sh_call X st false prog [flag] in ret (truthy out)) s)
    as [[b|e|c] s1] eqn:E.
  - by exists b, s1.
  - by exists false, s1.
  - exfalso. eapply Hn; [| |exact E].
    + unfold_script. never_exits.
    + intros a. never_exits.
Qed.

(** The probes that only look at the file system always return. *)
Lemma path_probe_total X st s :
  cls st = GitClone \/ cls st = SetupDatabase \/ cls st = RunServer ->
  exists b, already_satisfied X st s = (Ok b, s).
Proof.
  unfold already_satisfied. intros [->|[->| ->]]; by eexists.
Qed.

(** [BrewDependenciesInstall.already_satisfied] has no handler: when
    [brew list -1] exits non-zero the probe raises. *)
Lemma brew_probe_raises X st s sudo user err f :
  cls st = BrewDependenciesInstall -> self_sh st = Some (sudo, user) ->
  ext_run X false [sudo; "-E"; "-u"; user; "brew"; "list"; "-1"] "" (world s) =
    (Failure err, f) ->
  already_satisfied X st s =
    (Raise (ErrorReturnCode err), mkSt (set_fs f (world s)) (trace s)).
Proof.
  intros Hc Hsh Hrun. unfold already_satisfied. rewrite Hc.
  unfold self_sh_call, self_sh_attr. rewrite Hsh. unfold bind, ret, sh_exec. simpl.
  by rewrite Hrun.
Qed.

(** So has [AptDependenciesInstall.already_satisfied]. *)
Lemma apt_probe_raises X st s apt err f :
  cls st = AptDependenciesInstall -> self_sh st = None ->
  ext_which X "apt-get" (world s) = Some apt ->
  ext_run X false (apt :: "install" :: "--dry-run" :: apt_dependencies) "" (world s) =
    (Failure err, f) ->
  already_satisfied X st s =
    (Raise (ErrorReturnCode err), mkSt (set_fs f (world s)) (trace s)).
Proof.
  intros Hc Hsh Hw Hrun. unfold already_satisfied. rewrite Hc.
  unfold apt_run, self_sh_call, self_sh_attr. rewrite Hsh.
  unfold bind, ret, sh_exec, sh_resolve. rewrite Hw. simpl.
  by rewrite Hrun.
Qed.

(** C4 fails on the code: two probes run a command outside any [try].
    On Linux, when [apt-get install --dry-run] exits non-zero, the first
    probe of the run raises and the whole run ends there; on OS X, with
    Homebrew absent and its step skipped, the probe of the dependencies
    step does the same. *)
Theorem probe_error_aborts_run :
  let apt_broken := Sim.machine (Sim.mkConfig [] ["apt-get"]) in
  let linux_run := main apt_broken "" "" false (Sim.start Sim.linux) in
  let no_brew := Sim.machine (Sim.mkConfig ["brew"] []) in
  let osx_run := main no_brew "" "HomebrewInstall" false (Sim.start Sim.osx) in
  fst linux_run = Raise (ErrorReturnCode "apt-get: failed") /\
  last (trace (snd linux_run)) = Some (EProbe AptDependenciesInstall) /\
  fst osx_run = Raise (ErrorReturnCode "sudo: brew: command not found") /\
  last (trace (snd osx_run)) = Some (EProbe BrewDependenciesInstall).
Proof. intros apt_broken linux_run no_brew osx_run. repeat split; by_evaluation. Qed.

(** ** Probes and the machine *)

(** Sequencing when the first part's result is known to satisfy [Q]. *)
Lemma keeps_bind_post {A B} (R : relation St) `{!PreOrder R}
    (Q : A -> Prop) (m : M A) (k : A -> M B) :
  keeps R m -> (forall s a s', m s = (Ok a, s') -> Q a) ->
  (forall a, Q a -> keeps R (k a)) -> keeps R (bind m k).
Proof.
  intros Hm HQ Hk s. unfold bind. specialize (Hm s). specialize (HQ s).
  destruct (m s) as [[a|e|c] s1]; simpl in *; [|done..].
  etransitivity; [exact Hm|]. apply Hk. by eapply HQ.
Qed.

(** The command line [self.sh.prog] stands for, completed by a probe's
    query, is one of the probes' command lines. *)
Lemma self_sh_attr_probe X st prog args s cmd s' :
  (forall sudo user, self_sh st = Some (sudo, user) ->
                     exists w, ext_which X "sudo" w = Some sudo) ->
  probe_query prog args ->
  self_sh_attr X st prog s = (Ok cmd, s') -> probe_command X (cmd ++ args).
Proof.
  intros Hsudo Hq. unfold self_sh_attr.
  destruct (self_sh st) as [[sudo user]|] eqn:E.
  - intros [= <- _]. destruct (Hsudo sudo user eq_refl) as [w Hw].
    by eapply pc_sudo.
  - intros H. apply bind_ok_inv in H as (p & s1 & Hp & [= <- _]).
    unfold sh_resolve in Hp.
    destruct (ext_which X prog (world s)) eqn:Hw; simplify_eq.
    by eapply pc_direct.
Qed.

Section ProbesRead.

Context (X : External) (Hro : read_only_probes X) (st : Step).
Hypothesis Hsudo : forall sudo user, self_sh st = Some (sudo, user) ->
                                     exists w, ext_which X "sudo" w = Some sudo.

Lemma same_world_self_sh_attr prog : keeps same_world (self_sh_attr X st prog).
Proof. unfold self_sh_attr. frame. Qed.

Lemma same_world_query verbose prog args :
  probe_query prog args -> keeps same_world (self_sh_call X st verbose prog args).
Proof.
  intros Hq. unfold self_sh_call.
  apply (keeps_bind_post _ (fun cmd => probe_command X (cmd ++ args))).
  - apply same_world_self_sh_attr.
  - intros s cmd s'. by apply self_sh_attr_probe.
  - intros cmd Hc. by apply same_world_sh_exec.
Qed.

Lemma same_world_version_probe prog flag :
  probe_query prog [flag] -> keeps same_world (version_probe X st prog flag).
Proof.
  intros Hq. unfold version_probe. apply keeps_try_except; [typeclasses eauto| |].
  - apply keeps_bind; [typeclasses eauto| |intros ?; apply keeps_ret; typeclasses eauto].
    by apply same_world_query.
  - intros e k [= <-]. apply keeps_ret. typeclasses eauto.
Qed.

Lemma same_world_grep_probe (path : M string) pattern :
  keeps same_world path -> keeps same_world (grep_probe X st path pattern).
Proof.
  intros Hpath. unfold grep_probe. apply keeps_try_except; [typeclasses eauto| |].
  - apply (keeps_bind_post _ (fun grep => probe_command X (grep ++ [pattern]))).
    + apply same_world_self_sh_attr.
    + intros s cmd s'. apply self_sh_attr_probe; [done|constructor].
    + intros grep Hgrep.
      apply (keeps_bind_post _ (fun cat => exists w, ext_which X "cat" w = Some cat)).
      * frame.
      * intros s cat s'. unfold sh_resolve.
        destruct (ext_which X "cat" (world s)) eqn:E; [|done].
        intros [= <- _]. by exists (world s).
      * intros cat [w Hw]. apply keeps_bind; [typeclasses eauto|done|]. intros p.
        apply keeps_bind; [typeclasses eauto| |]; [|intros text].
        { apply same_world_sh_exec; [done|]. by eapply pc_cat. }
        apply keeps_bind; [typeclasses eauto| |intros ?; apply keeps_ret; typeclasses eauto].
        by apply same_world_sh_exec.
  - intros e k H. destruct e; simplify_eq. apply keeps_ret. typeclasses eauto.
Qed.

Lemma same_world_bash_config_file opts : keeps same_world (bash_config_file opts).
Proof. unfold bash_config_file. frame. Qed.

(** Every probe but the sandbox's leaves the machine as it was. *)
Lemma same_world_already_satisfied :
  cls st <> VirtualEnv -> keeps same_world (already_satisfied X st).
Proof.
  intros Hc. unfold already_satisfied. destruct (cls st).
  - apply same_world_version_probe. constructor.
  - apply same_world_version_probe. constructor.
  - apply keeps_bind; [typeclasses eauto| |intros ?; apply keeps_ret; typeclasses eauto].
    apply same_world_query. constructor.
  - apply same_world_version_probe. constructor.
  - apply keeps_bind; [typeclasses eauto| |intros ?; apply keeps_ret; typeclasses eauto].
    unfold apt_run. apply same_world_query. constructor.
  - apply same_world_grep_probe. frame.
  - frame.
  - done.
  - apply same_world_grep_probe. apply same_world_bash_config_file.
  - frame.
  - apply same_world_grep_probe. apply same_world_bash_config_file.
  - frame.
Qed.

End ProbesRead.

(** The sandbox's probe, before the sandbox exists, answers no and does
    nothing else. *)
Lemma virtualenv_probe_absent X st s :
  cls st = VirtualEnv -> path_exists (activate_this st) s = (Ok false, s) ->
  already_satisfied X st s = (Ok false, s).
Proof.
  intros Hc Hp. unfold already_satisfied. rewrite Hc.
  by rewrite (bind_ok _ _ _ _ _ Hp).
Qed.

(** C5, amended: when the programs the probes query only read, the probe
    of every step other than [VirtualEnv], and the probe of [VirtualEnv]
    while the sandbox's activation script does not exist, leave the file
    system, the environment variables and the working directory as they
    were. *)
Theorem probes_leave_machine_alone X c opts s0 st s1 s :
  read_only_probes X ->
  instantiate X c opts s0 = (Ok st, s1) ->
  c <> VirtualEnv \/ path_exists (activate_this st) s = (Ok false, s) ->
  world (snd (already_satisfied X st s)) = world s.
Proof.
  intros Hro Hi Hc. destruct (instantiate_fields _ _ _ _ _ _ Hi) as [Hcls _].
  destruct (decide (c = VirtualEnv)) as [->|Hne].
  - destruct Hc as [Hc|Hc]; [done|].
    by rewrite (virtualenv_probe_absent _ _ _ Hcls Hc).
  - apply (same_world_already_satisfied X Hro st); [|by rewrite Hcls].
    intros sudo user Hs. by eapply instantiate_sudo.
Qed.

(** The programs of the simulated machine answer the probes' queries
    without writing. *)
Lemma sim_read_only_probes : read_only_probes (Sim.machine Sim.healthy).
Proof.
  intros verbose argv stdin w Hpc.
  inversion Hpc as [w' prog path args Hw Hq|w' sudo user prog args Hw Hq|w' cat path Hw];
    subst; injection Hw as <-; try (inversion Hq; subst); reflexivity.
Qed.

(** C5 fails for the sandbox's probe: on a provisioned machine
    [VirtualEnv.already_satisfied] runs the activation script, which puts
    the sandbox's [bin] directory in front of [PATH] once more. *)
Lemma virtualenv_probe_activates :
  let X := Sim.machine Sim.healthy in
  let opts := set_os_version "linux" None (Sim.options "" "") in
  let s := Sim.start (Sim.provisioned X Sim.linux) in
  let st := Sim.built opts VirtualEnv in
  read_only_probes X /\
  fst (instantiate X VirtualEnv opts s) = Ok st /\
  world (snd (instantiate X VirtualEnv opts s)) = world s /\
  fst (already_satisfied X st s) = Ok true /\
  environ (world s) !! "PATH" =
    Some "/home/dev/projects/advocoders/virtualenv/bin:/home/dev/projects/advocoders/virtualenv/bin:/usr/bin:/bin" /\
  world (snd (already_satisfied X st s)) <> world s.
Proof.
  intros X opts s st. split; [apply sim_read_only_probes|].
  split; [by_evaluation|]. split; [by_decision|].
  split; [by_evaluation|]. split; [by_evaluation|].
  assert (E1 : environ (world s) !! "PATH" =
    Some "/home/dev/projects/advocoders/virtualenv/bin:/home/dev/projects/advocoders/virtualenv/bin:/usr/bin:/bin")
    by by_evaluation.
  assert (E2 : environ (world (snd (already_satisfied X st s))) !! "PATH" =
    Some "/home/dev/projects/advocoders/virtualenv/bin:/home/dev/projects/advocoders/virtualenv/bin:/home/dev/projects/advocoders/virtualenv/bin:/usr/bin:/bin")
    by by_evaluation.
  intros H. rewrite H, E1 in E2. discriminate E2.
Qed.

Lemma probes_leave_machine_alone_witness :
  let X := Sim.machine Sim.healthy in
  let opts := set_os_version "linux" None (Sim.options "" "") in
  let s := Sim.start Sim.linux in
  let st := Sim.built opts UpdateHostsFile in
  world (snd (already_satisfied X st s)) = world s.
Proof.
  intros X opts s st.
  apply (probes_leave_machine_alone X UpdateHostsFile opts s st s s).
  - apply sim_read_only_probes.
  - by_evaluation.
  - left. discriminate.
Defined.

(** ** An unsupported platform *)

Global Instance same_platform_preorder : PreOrder same_platform.
Proof.
  split.
  - by intros s.
  - intros a b c [H1 H2] [H3 H4]. unfold same_platform. split; congruence.
Qed.

Lemma same_platform_write_file p c : keeps same_platform (write_file p c).
Proof.
  intros s. unfold write_file.
  by destruct (fs (world s) !! abspath (world s) p) as [[]|].
Qed.

Lemma same_platform_chdir p : keeps same_platform (chdir p).
Proof.
  intros s. unfold chdir.
  by destruct (fs (world s) !! abspath (world s) p) as [[]|].
Qed.

Lemma same_platform_sh_exec X verbose argv stdin :
  keeps same_platform (sh_exec X verbose argv stdin).
Proof.
  intros s. unfold sh_exec.
  by destruct (ext_run X verbose argv stdin (world s)) as [[] f].
Qed.

Section Prologue.

Context (X : External).

Lemma same_platform_get_options f k q : keeps same_platform (get_options f k q).
Proof. unfold get_options, expanduser_home. frame. Qed.

Lemma same_platform_make_temp_directory : keeps same_platform (make_temp_directory X).
Proof.
  intros s. unfold make_temp_directory.
  change (bind get_world ?k s) with (k (world s) s). cbv beta zeta.
  change (bind (put_world ?w) ?k s) with (k tt (mkSt w (trace s))). cbv beta.
  set (s1 := mkSt _ (trace s)).
  assert (H1 : same_platform s s1) by done.
  etransitivity; [exact H1|].
  apply keeps_bind; [typeclasses eauto|apply same_platform_chdir|].
  intros ?. apply keeps_ret. typeclasses eauto.
Qed.

Lemma same_platform_load_this_script_deps :
  keeps same_platform (load_this_script_deps X).
Proof.
  unfold load_this_script_deps, urlretrieve.
  frame; apply same_platform_write_file.
Qed.

Lemma same_platform_sh_command verbose prog args :
  keeps same_platform (sh_command X verbose prog args).
Proof. unfold sh_command. frame. apply same_platform_sh_exec. Qed.

Lemma never_exits_get_options f k q : never_exits (get_options f k q).
Proof. unfold get_options, expanduser_home. never_exits. Qed.

Lemma never_exits_make_temp_directory : never_exits (make_temp_directory X).
Proof. unfold make_temp_directory. never_exits. Qed.

Lemma never_exits_load_this_script_deps : never_exits (load_this_script_deps X).
Proof. unfold load_this_script_deps, urlretrieve. never_exits. Qed.

Lemma never_exits_sh_command verbose prog args :
  never_exits (sh_command X verbose prog args).
Proof. unfold sh_command. never_exits. Qed.

End Prologue.

(** On a platform that is neither of the two the script knows, detection
    raises and [run_steps] has done nothing. *)
Lemma run_steps_unsupported X temp opts s :
  platform (world s) <> "darwin" -> platform (world s) <> "linux2" ->
  run_steps X temp opts s =
    (Raise (PyException ("Unsupported OS: " +:+ platform (world s))), s).
Proof.
  intros Hd Hl. apply run_steps_undetected. unfold os_and_version.
  apply String.eqb_neq in Hd, Hl. by rewrite Hd, Hl.
Qed.

Lemma raises_quietly_bind {A B} (m : M A) (k : A -> M B) s0 s :
  keeps same_platform m -> never_exits m -> same_platform s0 s ->
  (forall a s1, same_platform s0 s1 -> raises_quietly s0 (k a s1)) ->
  raises_quietly s0 (bind m k s).
Proof.
  intros Hk Hn H0 Hrest. unfold bind. specialize (Hk s). specialize (Hn s).
  destruct (m s) as [[a|e|c] s1]; simpl in *.
  - apply Hrest. by etransitivity.
  - split; [by exists e|]. simpl. by etransitivity.
  - by destruct (Hn c s1).
Qed.

(** C7, amended: on an unrecognised platform the run ends in an uncaught
    exception, so with status 1, and no step has been instantiated: the
    record of the run is as it was.  [run_steps] itself raises
    [Exception("Unsupported OS: ...")] at once and leaves the machine as
    it found it; what the script did to the file system before (the
    temporary directory, the download of [sh.py], [chmod]) stays. *)
Theorem unsupported_platform_raises X force_arg skip_arg quiet_arg s :
  platform (world s) <> "darwin" -> platform (world s) <> "linux2" ->
  (exists e, fst (main X force_arg skip_arg quiet_arg s) = Raise e) /\
  exit_status (fst (main X force_arg skip_arg quiet_arg s)) = 1%Z /\
  trace (snd (main X force_arg skip_arg quiet_arg s)) = trace s /\
  (forall temp opts s1, same_platform s s1 ->
     run_steps X temp opts s1 =
       (Raise (PyException ("Unsupported OS: " +:+ platform (world s))), s1)).
Proof.
  intros Hd Hl.
  assert (Hrun : forall temp opts s1, same_platform s s1 ->
     run_steps X temp opts s1 =
       (Raise (PyException ("Unsupported OS: " +:+ platform (world s))), s1)).
  { intros temp opts s1 [Hp _]. rewrite <- Hp. apply run_steps_unsupported; by rewrite Hp. }
  assert (H : raises_quietly s (main X force_arg skip_arg quiet_arg s)).
  { unfold main.
    apply raises_quietly_bind;
      [apply same_platform_get_options|apply never_exits_get_options|reflexivity|].
    intros opts s1 H1.
    apply raises_quietly_bind;
      [apply same_platform_make_temp_directory|apply never_exits_make_temp_directory|done|].
    intros temp s2 H2.
    apply raises_quietly_bind;
      [apply same_platform_load_this_script_deps
      |apply never_exits_load_this_script_deps|done|].
    intros [] s3 H3.
    apply raises_quietly_bind;
      [apply same_platform_sh_command|apply never_exits_sh_command|done|].
    intros out s4 H4. rewrite (Hrun _ _ _ H4). split; [by eexists|done]. }
  destruct H as [[e He] [_ Ht]]. repeat split; [by exists e|by rewrite He|done|done].
Qed.

(** C7 fails on the last point: before the platform is looked at, the
    script has made a temporary directory and moved into it. *)
Lemma unsupported_platform_leaves_temp_directory :
  let run := main (Sim.machine Sim.healthy) "" "" false (Sim.start Sim.windows) in
  fst run = Raise (PyException "Unsupported OS: win32") /\
  trace (snd run) = [] /\
  fs Sim.windows !! Sim.temp_dir = None /\
  fs (world (snd run)) !! Sim.temp_dir = Some Dir /\
  cwd (world (snd run)) = Sim.temp_dir /\
  fs (world (snd run)) <> fs Sim.windows.
Proof.
  intros run.
  assert (E1 : fs Sim.windows !! Sim.temp_dir = None) by by_evaluation.
  assert (E2 : fs (world (snd run)) !! Sim.temp_dir = Some Dir) by by_evaluation.
  repeat split; try by_evaluation.
  intros H. rewrite H, E1 in E2. discriminate E2.
Qed.

Lemma unsupported_platform_raises_witness :
  exit_status (fst (main (Sim.machine Sim.healthy) "" "" false (Sim.start Sim.windows))) = 1%Z.
Proof.
  apply (unsupported_platform_raises (Sim.machine Sim.healthy) "" "" false
           (Sim.start Sim.windows)); discriminate.
Defined.

(** ** Entries added to files *)

Lemma starts_with_refl s : starts_with s s = true.
Proof. induction s as [|a s IH]; [done|]. simpl. by rewrite Ascii.eqb_refl. Qed.

Lemma starts_with_append p rest : starts_with p (p +:+ rest) = true.
Proof. induction p as [|a p IH]; [done|]. simpl. by rewrite Ascii.eqb_refl. Qed.

(** [prepend_file] on an existing file: the new content comes first, then
    a newline, then all that was there; no other path changes. *)
Lemma prepend_file_spec file_path content old s :
  fs (world s) !! abspath (world s) file_path = Some (File old) ->
  prepend_file file_path content s =
    (Ok tt, mkSt (set_fs (<[abspath (world s) file_path :=
                             File (content +:+ nl +:+ old)]> (fs (world s))) (world s))
              (trace s)).
Proof.
  intros H. unfold prepend_file, bind, read_file, write_file. rewrite H. simpl.
  by rewrite H.
Qed.

(** A file that cannot be read is left alone: [prepend_file] raises
    [IOError] before it opens the file for writing. *)
Lemma prepend_file_missing file_path content s :
  fs (world s) !! abspath (world s) file_path = None ->
  prepend_file file_path content s = (Raise IOError, s).
Proof.
  intros H. unfold prepend_file, bind, read_file. by rewrite H.
Qed.

(** C8, amended: the steps that edit the hosts file and the shell profile
    put their entry, followed by a newline, in front of the file's
    content; the content that was there follows unchanged, and nothing
    else on the machine changes. *)
Theorem entries_are_prepended X st s path entry old :
  adds_entry st s path entry ->
  fs (world s) !! abspath (world s) path = Some (File old) ->
  setup X st s =
    (Ok tt, mkSt (set_fs (<[abspath (world s) path := File (entry +:+ nl +:+ old)]>
                            (fs (world s))) (world s)) (trace s)).
Proof.
  intros Ha Hold. unfold setup. destruct Ha as [Hc|p Hc Hp|p Hc Hp]; rewrite Hc.
  - by apply prepend_file_spec.
  - rewrite (bind_ok _ _ _ _ _ Hp). by apply prepend_file_spec.
  - rewrite (bind_ok _ _ _ _ _ Hp). by apply prepend_file_spec.
Qed.

(** C8 fails as stated: after [UpdateHostsFile.setup] the hosts file does
    not begin with its former content, so nothing was appended to it. *)
Lemma hosts_entry_not_appended :
  let X := Sim.machine Sim.healthy in
  let st := Sim.built (set_os_version "linux" None (Sim.options "" "")) UpdateHostsFile in
  let old := "127.0.0.1 localhost" +:+ nl in
  let new := "127.0.0.1 advocoders.localhost.com" +:+ nl +:+ old in
  fs Sim.linux !! "/etc/hosts" = Some (File old) /\
  fst (setup X st (Sim.start Sim.linux)) = Ok tt /\
  fs (world (snd (setup X st (Sim.start Sim.linux)))) !! "/etc/hosts" = Some (File new) /\
  forall added, new <> old +:+ added.
Proof.
  intros X st old new. repeat split; try by_evaluation.
  intros added H. pose proof (starts_with_append old added) as Hs.
  rewrite <- H in Hs. discriminate Hs.
Qed.

Lemma entries_are_prepended_witness :
  let X := Sim.machine Sim.healthy in
  let opts := set_os_version "linux" None (Sim.options "" "") in
  let st := Sim.built opts ProductionEnvironmentVariable in
  let s := Sim.start Sim.linux in
  setup X st s =
    (Ok tt, mkSt (set_fs (<["/home/dev/.bashrc" :=
                             File ("export PRODUCTION=False" +:+ nl +:+ "# ~/.bashrc" +:+ nl)]>
                            (fs Sim.linux)) Sim.linux) []).
Proof.
  intros X opts st s.
  apply (entries_are_prepended X st s "/home/dev/.bashrc" "export PRODUCTION=False"
           ("# ~/.bashrc" +:+ nl)).
  - by apply adds_export.
  - by_evaluation.
Defined.

(** ** The catalog *)

(** C9: the catalog depends on the detected family alone, not on the
    version, and for Linux it is the eight steps below in this order;
    a run on a machine detected as Linux goes through exactly that
    sequence. *)
Theorem linux_catalog X temp opts s :
  platform (world s) = "linux2" ->
  (forall o v v', get_steps o v = get_steps o v') /\
  (forall v, get_steps "linux" v =
     [AptDependenciesInstall; UpdateHostsFile; GitClone; VirtualEnv;
      ProductionEnvironmentVariable; SetupDatabase; RunServerAlias; RunServer]) /\
  run_steps X temp opts s =
    for_steps X (set_os_version "linux" None opts)
      [AptDependenciesInstall; UpdateHostsFile; GitClone; VirtualEnv;
       ProductionEnvironmentVariable; SetupDatabase; RunServerAlias; RunServer] s.
Proof.
  intros Hp. split; [done|]. split; [done|].
  apply (run_steps_detected X temp opts s "linux" None).
  unfold os_and_version. by rewrite Hp.
Qed.

Lemma linux_catalog_witness :
  instantiations
    (trace (snd (run_steps (Sim.machine Sim.healthy) Sim.temp_dir (Sim.options "" "")
                   (Sim.start Sim.linux)))) =
  [AptDependenciesInstall; UpdateHostsFile; GitClone; VirtualEnv;
   ProductionEnvironmentVariable; SetupDatabase; RunServerAlias; RunServer].
Proof.
  destruct (linux_catalog (Sim.machine Sim.healthy) Sim.temp_dir (Sim.options "" "")
              (Sim.start Sim.linux) eq_refl) as (_ & _ & ->).
  by_evaluation.
Defined.

(** * Further properties of the script *)

(** ** The [in] test on the option texts *)

Lemma starts_with_prefix p s : starts_with p s = true <-> exists post, s = p +:+ post.
Proof.
  revert s. induction p as [|a p IH]; intros s; simpl.
  - split; [by exists s|done].
  - destruct s as [|b s]; [split; [done|by intros [? ?]]|].
    rewrite andb_true_iff, IH. split.
    + intros [Hab [post ->]]. apply Ascii.eqb_eq in Hab as ->. by exists post.
    + intros [post [= -> ->]]. split; [apply Ascii.eqb_refl|by exists post].
Qed.

Lemma str_in_unfold n h :
  str_in n h = starts_with n h ||
               match h with EmptyString => false | String _ h' => str_in n h' end.
Proof. by destruct h. Qed.

Lemma str_in_occurs n h :
  str_in n h = true <-> exists pre post, h = pre +:+ n +:+ post.
Proof.
  split.
  - induction h as [|a h IH]; rewrite str_in_unfold, orb_true_iff.
    + intros [H|H]; [|done]. apply starts_with_prefix in H as [post ->]. by exists "", post.
    + intros [H|H].
      * apply starts_with_prefix in H as [post ->]. by exists "", post.
      * destruct (IH H) as (pre & post & ->). by exists (String a pre), post.
  - intros (pre & post & ->). induction pre as [|a pre IH]; rewrite str_in_unfold.
    + change ("" +:+ n +:+ post) with (n +:+ post). by rewrite starts_with_append.
    + change (String a pre +:+ n +:+ post) with (String a (pre +:+ n +:+ post)).
      cbv iota. by rewrite IH, orb_true_r.
Qed.

(** A step that fails the skip test is probed: the turn records it. *)
Lemma conclude_probed X opts st s :
  str_in (display_name st) (skip opts) = false ->
  exists l, trace (snd (conclude X opts st s)) = trace s ++ EProbe (cls st) :: l.
Proof.
  intros Hs. unfold conclude. rewrite Hs, bind_emit.
  match goal with
  | |- context [bind (already_satisfied X st) ?k] =>
      assert (Hk : keeps (emits (fun _ => True)) (bind (already_satisfied X st) k))
  end.
  { unfold guarded_setup, after_setup. frame.
    all: first [ by apply emits_already_satisfied | by apply emits_setup
               | by apply emits_print_troubleshooting ]. }
  destruct (Hk (noting (EProbe (cls st)) s)) as (l & Hl & _).
  exists l. rewrite Hl, trace_noting, <- app_assoc. done.
Qed.

(** The skip test of [run_steps] is Python's [in] on two strings: a step
    is passed over, with nothing probed or set up, exactly when its class
    name occurs somewhere inside the raw [--skip] text. *)
Theorem skip_test_is_substring X opts st s :
  conclude X opts st s = (Ok tt, s) <->
  exists pre post, skip opts = pre +:+ display_name st +:+ post.
Proof.
  rewrite <- str_in_occurs. split.
  - intros H. destruct (str_in (display_name st) (skip opts)) eqn:Hs; [done|].
    destruct (conclude_probed X opts st s Hs) as [l Hl]. rewrite H in Hl. simpl in Hl.
    apply (f_equal (@List.length Event)) in Hl. rewrite List.length_app in Hl.
    simpl in Hl. lia.
  - apply conclude_skipped.
Qed.

(** With the default, empty, [--skip] text no step is passed over. *)
Lemma str_in_empty_text n : n <> "" -> str_in n "" = false.
Proof. by destruct n. Qed.

Lemma class_name_nonempty c : class_name c <> "".
Proof. by destruct c. Qed.

(** With an empty [--skip] text, every step that is built and whose hook
    returns is probed. *)
Theorem default_skips_nothing X opts c s st s1 :
  skip opts = "" ->
  reach X opts c s = (Ok st, s1) ->
  In (EProbe c) (trace (snd (run_step X opts c s))).
Proof.
  intros Hskip Hr. rewrite (run_step_reach _ _ _ _ _ _ Hr).
  destruct (reach_fields _ _ _ _ _ _ Hr) as [Hc _].
  destruct (conclude_probed X opts st s1) as [l Hl].
  - rewrite Hskip. apply str_in_empty_text. unfold display_name. rewrite Hc.
    apply class_name_nonempty.
  - rewrite Hl, Hc. apply in_or_app. right. by left.
Qed.

Lemma default_skips_nothing_witness :
  let X := Sim.machine Sim.healthy in
  let opts := set_os_version "linux" None (Sim.options "" "") in
  In (EProbe UpdateHostsFile)
     (trace (snd (run_step X opts UpdateHostsFile (Sim.start Sim.linux)))).
Proof.
  intros X opts.
  apply (default_skips_nothing X opts UpdateHostsFile (Sim.start Sim.linux)
           (Sim.built opts UpdateHostsFile)
           (noting_all (Sim.hook_events UpdateHostsFile) (Sim.start Sim.linux))).
  - reflexivity.
  - by_evaluation.
Defined.

(** ** [prepend_file] *)

(** [prepend_file] on a path that is no readable file raises [IOError]
    and creates nothing: the machine is as it was. *)
Theorem prepend_file_unreadable file_path content s :
  (forall old, fs (world s) !! abspath (world s) file_path <> Some (File old)) ->
  prepend_file file_path content s = (Raise IOError, s).
Proof.
  intros H. unfold prepend_file, bind, read_file.
  destruct (fs (world s) !! abspath (world s) file_path) as [[c|]|] eqn:E; try done.
  by destruct (H c).
Qed.

Lemma prepend_file_unreadable_witness :
  prepend_file "/etc/motd" "hello" (Sim.start Sim.linux) =
    (Raise IOError, Sim.start Sim.linux).
Proof.
  apply prepend_file_unreadable. intros old.
  assert (E : fs (world (Sim.start Sim.linux)) !! abspath (world (Sim.start Sim.linux)) "/etc/motd"
              = None) by by_evaluation.
  rewrite E. discriminate.
Defined.

Lemma abspath_set_fs f w p : abspath (set_fs f w) p = abspath w p.
Proof. done. Qed.

(** Two calls of [prepend_file] on a file stack their contents, the
    later one first; neither call touches another path. *)
Theorem prepend_file_twice file_path c1 c2 old s :
  fs (world s) !! abspath (world s) file_path = Some (File old) ->
  (let* _ := prepend_file file_path c1 in prepend_file file_path c2) s =
    (Ok tt, mkSt (set_fs (<[abspath (world s) file_path :=
                             File (c2 +:+ nl +:+ c1 +:+ nl +:+ old)]> (fs (world s)))
                    (world s)) (trace s)).
Proof.
  intros H. rewrite (bind_ok _ _ _ _ _ (prepend_file_spec _ c1 _ _ H)).
  rewrite (prepend_file_spec _ c2 (c1 +:+ nl +:+ old)).
  - simpl. by rewrite insert_insert_eq.
  - simpl. apply lookup_insert_eq.
Qed.

Lemma prepend_file_twice_witness :
  (let* _ := prepend_file "/etc/hosts" "a" in prepend_file "/etc/hosts" "b")
    (Sim.start Sim.linux) =
  (Ok tt, mkSt (set_fs (<["/etc/hosts" :=
                           File ("b" +:+ nl +:+ "a" +:+ nl +:+ "127.0.0.1 localhost" +:+ nl)]>
                          (fs Sim.linux)) Sim.linux) []).
Proof.
  apply (prepend_file_twice "/etc/hosts" "a" "b" ("127.0.0.1 localhost" +:+ nl)
           (Sim.start Sim.linux)).
  by_evaluation.
Defined.

(** The [setup] of a file-editing step is one call of [prepend_file]. *)
Lemma adds_entry_setup X st s path entry :
  adds_entry st s path entry -> setup X st s = prepend_file path entry s.
Proof.
  intros Ha. unfold setup. destruct Ha as [Hc|p Hc Hp|p Hc Hp]; rewrite Hc; [done|..];
    by rewrite (bind_ok _ _ _ _ _ Hp).
Qed.

Lemma adds_entry_state st s s' path entry :
  adds_entry st s path entry -> adds_entry st s' path entry.
Proof.
  intros [Hc|p Hc Hp|p Hc Hp].
  - by apply adds_host.
  - apply adds_export; [done|]. revert Hp. unfold bash_config_file.
    repeat case_match; by intros [= <-].
  - apply adds_alias; [done|]. revert Hp. unfold bash_config_file.
    repeat case_match; by intros [= <-].
Qed.

(** Running the [setup] of a file-editing step a second time, as
    [--force] does on a provisioned machine, puts the entry in the file a
    second time. *)
Theorem setup_again_duplicates_entry X st s path entry old s1 :
  adds_entry st s path entry ->
  fs (world s) !! abspath (world s) path = Some (File old) ->
  setup X st s = (Ok tt, s1) ->
  exists s2, setup X st s1 = (Ok tt, s2) /\
    fs (world s2) !! abspath (world s) path =
      Some (File (entry +:+ nl +:+ entry +:+ nl +:+ old)).
Proof.
  intros Ha Hold Hs.
  rewrite (adds_entry_setup X st s path entry Ha), (prepend_file_spec _ _ _ _ Hold) in Hs.
  injection Hs as <-. eexists. split.
  - rewrite (adds_entry_setup X st _ path entry (adds_entry_state _ _ _ _ _ Ha)).
    apply (prepend_file_spec path entry (entry +:+ nl +:+ old)).
    simpl. apply lookup_insert_eq.
  - simpl. apply lookup_insert_eq.
Qed.

Lemma setup_again_duplicates_entry_witness :
  let X := Sim.machine Sim.healthy in
  let st := Sim.built (set_os_version "linux" None (Sim.options "" "")) UpdateHostsFile in
  let entry := "127.0.0.1 advocoders.localhost.com" in
  let old := "127.0.0.1 localhost" +:+ nl in
  let s1 := mkSt (set_fs (<["/etc/hosts" := File (entry +:+ nl +:+ old)]> (fs Sim.linux))
                    Sim.linux) [] in
  exists s2, setup X st s1 = (Ok tt, s2) /\
    fs (world s2) !! "/etc/hosts" = Some (File (entry +:+ nl +:+ entry +:+ nl +:+ old)).
Proof.
  intros X st entry old s1.
  apply (setup_again_duplicates_entry X st (Sim.start Sim.linux) "/etc/hosts" entry old s1).
  - by apply adds_host.
  - by_evaluation.
  - apply (prepend_file_spec "/etc/hosts" entry old (Sim.start Sim.linux)). by_evaluation.
Defined.

(** ** The catalog on the other platforms *)

(** Whatever the detected family and version, the catalog is some
    family-specific steps followed by the same seven steps: four steps
    for OS X, one for Linux, none for any other name. *)
Theorem catalog_shape o v :
  get_steps o v =
    (if String.eqb o "osx"
     then [XCodeInstall; HomebrewInstall; BrewDependenciesInstall; VirtualEnvInstall]
     else if String.eqb o "linux" then [AptDependenciesInstall] else []) ++ common_steps
  /\ NoDup (get_steps o v)
  /\ List.last (get_steps o v) RunServer = RunServer.
Proof.
  unfold get_steps.
  destruct (String.eqb o "osx") eqn:E1; destruct (String.eqb o "linux") eqn:E2.
  - apply String.eqb_eq in E1, E2. congruence.
  - split; [done|]. split; [|done]. by apply (bool_decide_eq_true_1 (NoDup _)).
  - split; [done|]. split; [|done]. by apply (bool_decide_eq_true_1 (NoDup _)).
  - split; [done|]. split; [|done]. by apply (bool_decide_eq_true_1 (NoDup _)).
Qed.

(** On OS X the run goes through the eleven steps of the OS X catalog,
    built with the version made of the first two components of the
    system's version. *)
Theorem osx_catalog X temp opts s v :
  platform (world s) = "darwin" ->
  parse_version (mac_ver (world s)) = Some v ->
  run_steps X temp opts s =
    for_steps X (set_os_version "osx" (Some v) opts)
      [XCodeInstall; HomebrewInstall; BrewDependenciesInstall; VirtualEnvInstall;
       UpdateHostsFile; GitClone; VirtualEnv; ProductionEnvironmentVariable;
       SetupDatabase; RunServerAlias; RunServer] s.
Proof.
  intros Hp Hv. apply (run_steps_detected X temp opts s "osx" (Some v)).
  unfold os_and_version. by rewrite Hp, Hv.
Qed.

Lemma osx_catalog_witness :
  instantiations
    (trace (snd (run_steps (Sim.machine Sim.healthy) Sim.temp_dir (Sim.options "" "")
                   (Sim.start Sim.osx)))) =
  [XCodeInstall; HomebrewInstall; BrewDependenciesInstall; VirtualEnvInstall;
   UpdateHostsFile; GitClone; VirtualEnv; ProductionEnvironmentVariable;
   SetupDatabase; RunServerAlias; RunServer].
Proof.
  rewrite (osx_catalog (Sim.machine Sim.healthy) Sim.temp_dir (Sim.options "" "")
             (Sim.start Sim.osx) (108 # 10) eq_refl eq_refl).
  by_evaluation.
Defined.

(** When the system gives no version ([platform.mac_ver] answers with an
    empty text), [float] rejects it: detection on OS X raises
    [ValueError], and nothing has been built by then. *)
Theorem osx_version_unreadable X temp opts s :
  platform (world s) = "darwin" ->
  mac_ver (world s) = "" ->
  run_steps X temp opts s = (Raise ValueError, s).
Proof.
  intros Hp Hv. apply run_steps_undetected. unfold os_and_version. by rewrite Hp, Hv.
Qed.

Lemma osx_version_unreadable_witness :
  run_steps (Sim.machine Sim.healthy) Sim.temp_dir (Sim.options "" "")
    (Sim.start (Sim.bare "darwin" "")) =
  (Raise ValueError, Sim.start (Sim.bare "darwin" "")).
Proof. by apply osx_version_unreadable. Defined.

(** ** The method calls of a turn *)

Lemma calls_app t1 t2 : calls (t1 ++ t2) = calls t1 ++ calls t2.
Proof. unfold calls. apply List.filter_app. Qed.

Lemma emits_prints_calls s s' : emits is_print s s' -> adds [] s s'.
Proof.
  intros [l [Hl Hp]]. unfold adds. rewrite Hl, calls_app, app_nil_r.
  assert (calls l = []) as ->; [|by rewrite app_nil_r].
  clear Hl. induction Hp as [|e l He _ IH]; [done|]. unfold calls in *. by destruct e.
Qed.

Lemma adds_noting e s : is_call e = true -> adds [e] s (noting e s).
Proof. intros H. unfold adds. rewrite trace_noting, calls_app. simpl. by rewrite H. Qed.

Lemma adds_print line s : adds [] s (noting (EPrint line) s).
Proof. unfold adds. rewrite trace_noting, calls_app. simpl. by rewrite app_nil_r. Qed.

Lemma adds_trans la lb s s1 s2 : adds la s s1 -> adds lb s1 s2 -> adds (la ++ lb) s s2.
Proof. unfold adds. intros H1 H2. by rewrite H2, H1, app_assoc. Qed.

Lemma print_troubleshooting_ok st s :
  exists s', print_troubleshooting st s = (Ok tt, s').
Proof.
  unfold print_troubleshooting. destruct (display_troubleshooting st) as [text|].
  - destruct (nonempty text); [|by eexists]. unfold py_print. rewrite !bind_emit.
    by eexists.
  - by eexists.
Qed.

Section TurnCalls.

Context (X : External) (opts : Options) (st : Step).

Let c := cls st.

Lemma adds_already_satisfied s : adds [] s (snd (already_satisfied X st s)).
Proof. apply emits_prints_calls. by apply (emits_already_satisfied X is_print). Qed.

Lemma adds_setup s : adds [] s (snd (setup X st s)).
Proof. apply emits_prints_calls. by apply (emits_setup X is_print). Qed.

Lemma adds_print_troubleshooting s : adds [] s (snd (print_troubleshooting st s)).
Proof. apply emits_prints_calls. by apply (emits_print_troubleshooting is_print). Qed.

(** The guarded call of [setup]: one call, and no [exit]. *)
Lemma guarded_setup_calls s r s' :
  guarded_setup X st s = (r, s') ->
  adds [ESetup c] s s' /\ forall code, r <> Exit code.
Proof.
  unfold guarded_setup. rewrite bind_emit. unfold try_except.
  pose proof (adds_setup (noting (ESetup c) s)) as Hs.
  pose proof (never_exits_setup X st (noting (ESetup c) s)) as Hn.
  pose proof (adds_noting (ESetup c) s eq_refl) as H0.
  apply (adds_trans [ESetup c] [] _ _ _ H0) in Hs. rewrite app_nil_r in Hs.
  fold c. destruct (setup X st (noting (ESetup c) s)) as [[[]|e|code] s1]; simpl in *.
  - by intros [= <- <-].
  - destruct e; try by intros [= <- <-].
    intros [= <- <-]. split; [|done].
    pose proof (adds_trans _ _ _ _ _ Hs (adds_print stderr s1)) as H. by rewrite app_nil_r in H.
  - by destruct (Hn code s1).
Qed.

(** What follows [setup]: [exit(1)] at once for a forced step; otherwise
    one more probe, and [exit(1)] unless it answers yes. *)
Lemma after_setup_calls s r s' :
  after_setup X opts st s = (r, s') ->
  exists l, adds l s s' /\
    match r with
    | Ok _ => l = [EProbe c]
    | Raise _ => l = [EProbe c]
    | Exit code => code = 1%Z /\ (l = [] \/ l = [EProbe c])
    end.
Proof.
  unfold after_setup. destruct (str_in (display_name st) (force opts)).
  - intros [= <- <-]. exists []. split; [|auto]. unfold adds. by rewrite app_nil_r.
  - rewrite bind_emit. fold c.
    pose proof (adds_noting (EProbe c) s eq_refl) as H0.
    pose proof (adds_already_satisfied (noting (EProbe c) s)) as H1.
    pose proof (never_exits_already_satisfied X st (noting (EProbe c) s)) as Hn.
    apply (adds_trans _ _ _ _ _ H0) in H1. rewrite app_nil_r in H1.
    unfold bind at 1.
    destruct (already_satisfied X st (noting (EProbe c) s)) as [[b|e|code] s1]; simpl in *.
    + destruct b.
      * intros [= <- <-]. by exists [EProbe c].
      * unfold py_print. rewrite bind_emit.
        set (s2 := noting (EPrint ("ERROR: " +:+ display_name st +:+ " failed.")) s1).
        pose proof (adds_print_troubleshooting s2) as H2.
        pose proof (adds_print ("ERROR: " +:+ display_name st +:+ " failed.") s1) as H3.
        destruct (print_troubleshooting_ok st s2) as [s3 E3].
        rewrite (bind_ok _ _ _ _ _ E3). rewrite E3 in H2. simpl in H2.
        pose proof (adds_trans _ _ _ _ _ H1 (adds_trans _ _ _ _ _ H3 H2)) as H4.
        rewrite !app_nil_r in H4.
        intros [= <- <-]. exists [EProbe c]. auto.
    + intros [= <- <-]. by exists [EProbe c].
    + by destruct (Hn code s1).
Qed.

(** The calls of a turn from the skip test on, by the way it ends. *)
Lemma conclude_calls s r s' :
  conclude X opts st s = (r, s') ->
  exists l, adds l s s' /\
    match r with
    | Ok _ => l = [] \/ l = [EProbe c] \/ l = [EProbe c; ESetup c; EProbe c]
    | Raise _ => l = [EProbe c] \/ l = [EProbe c; ESetup c] \/
                 l = [EProbe c; ESetup c; EProbe c]
    | Exit code => code = 1%Z /\
                   (l = [EProbe c; ESetup c] \/ l = [EProbe c; ESetup c; EProbe c])
    end.
Proof.
  unfold conclude. destruct (str_in (display_name st) (skip opts)).
  { intros [= <- <-]. exists []. split; [|auto]. unfold adds. by rewrite app_nil_r. }
  rewrite bind_emit. fold c.
  pose proof (adds_noting (EProbe c) s eq_refl) as H0.
  pose proof (adds_already_satisfied (noting (EProbe c) s)) as H1.
  pose proof (never_exits_already_satisfied X st (noting (EProbe c) s)) as Hn.
  apply (adds_trans _ _ _ _ _ H0) in H1. rewrite app_nil_r in H1.
  unfold bind at 1.
  destruct (already_satisfied X st (noting (EProbe c) s)) as [[b|e|code] s1]; simpl in *.
  - destruct (b && negb (str_in (display_name st) (force opts))).
    { intros [= <- <-]. exists [EProbe c]. auto. }
    unfold py_print. rewrite bind_emit.
    set (s2 := noting (EPrint (display_doing st +:+ "...")) s1).
    pose proof (adds_trans _ _ _ _ _ H1 (adds_print (display_doing st +:+ "...") s1)) as H2.
    rewrite app_nil_r in H2. fold s2 in H2.
    unfold bind at 1.
    destruct (guarded_setup X st s2) as [[[]|e|code] s3] eqn:Eg;
      destruct (guarded_setup_calls _ _ _ Eg) as [H3 Hx].
    + pose proof (adds_trans _ _ _ _ _ H2 H3) as H4. simpl in H4.
      intros Ha. destruct (after_setup_calls _ _ _ Ha) as (l & Hl & Hr).
      pose proof (adds_trans _ _ _ _ _ H4 Hl) as H5.
      eexists. split; [exact H5|].
      destruct r as [[]|e|code]; [subst l; auto..|].
      destruct Hr as [-> [-> | ->]]; auto.
    + intros [= <- <-]. pose proof (adds_trans _ _ _ _ _ H2 H3) as H4. simpl in H4.
      eexists. split; [exact H4|auto].
    + by destruct (Hx code).
  - intros [= <- <-]. exists [EProbe c]. auto.
  - by destruct (Hn code s1).
Qed.

End TurnCalls.

(** Building a step and running its hook. *)
Lemma reach_calls X opts c s r s' :
  reach X opts c s = (r, s') ->
  exists l, adds l s s' /\
    match r with
    | Ok st => cls st = c /\ l = [EInstantiate c; EAlwaysRun c]
    | Raise _ => l = [EInstantiate c] \/ l = [EInstantiate c; EAlwaysRun c]
    | Exit _ => False
    end.
Proof.
  unfold reach. rewrite bind_emit.
  pose proof (adds_noting (EInstantiate c) s eq_refl) as H0.
  assert (H1 : adds [] (noting (EInstantiate c) s)
                 (snd (instantiate X c opts (noting (EInstantiate c) s)))).
  { apply emits_prints_calls. by apply (emits_instantiate X is_print). }
  pose proof (never_exits_instantiate X c opts (noting (EInstantiate c) s)) as Hn1.
  apply (adds_trans _ _ _ _ _ H0) in H1. rewrite app_nil_r in H1.
  unfold bind at 1.
  destruct (instantiate X c opts (noting (EInstantiate c) s)) as [[st|e|code] s1] eqn:Ei;
    simpl in H1.
  - destruct (instantiate_fields _ _ _ _ _ _ Ei) as [Hc _].
    rewrite bind_emit.
    pose proof (adds_noting (EAlwaysRun c) s1 eq_refl) as H2.
    assert (H3 : adds [] (noting (EAlwaysRun c) s1)
                   (snd (always_run X st (noting (EAlwaysRun c) s1)))).
    { apply emits_prints_calls. by apply (emits_always_run X is_print). }
    pose proof (never_exits_always_run X st (noting (EAlwaysRun c) s1)) as Hn2.
    apply (adds_trans _ _ _ _ _ H2) in H3. rewrite app_nil_r in H3.
    apply (adds_trans _ _ _ _ _ H1) in H3. simpl in H3.
    unfold bind at 1.
    destruct (always_run X st (noting (EAlwaysRun c) s1)) as [[[]|e|code] s2];
      simpl in H3.
    + intros [= <- <-]. eexists. split; [exact H3|done].
    + intros [= <- <-]. eexists. split; [exact H3|auto].
    + by destruct (Hn2 code s2).
  - intros [= <- <-]. eexists. split; [exact H1|auto].
  - by destruct (Hn1 code s1).
Qed.

(** The calls of a whole turn, by the way it ends. *)
Lemma run_step_calls X opts c s :
  exists l, adds l s (snd (run_step X opts c s)) /\
    In l (turn_calls c (fst (run_step X opts c s))) /\
    forall code, fst (run_step X opts c s) = Exit code -> code = 1%Z.
Proof.
  unfold run_step, bind.
  destruct (reach X opts c s) as [[st|e|code] s1] eqn:Er;
    destruct (reach_calls _ _ _ _ _ _ Er) as (l1 & H1 & Hr1); simpl.
  - destruct Hr1 as [Hc ->].
    destruct (conclude X opts st s1) as [r s3] eqn:Ec.
    destruct (conclude_calls X opts st _ _ _ Ec) as (l & Hl & Hr). rewrite Hc in Hr.
    pose proof (adds_trans _ _ _ _ _ H1 Hl) as H4. simpl.
    eexists. split; [exact H4|].
    destruct r as [[]|e|code]; simpl.
    + split; [|done]. destruct Hr as [-> | [-> | ->]]; simpl; auto.
    + split; [|done]. destruct Hr as [-> | [-> | ->]]; simpl; auto 6.
    + destruct Hr as [-> Hr]. split; [|by intros ? [= <-]].
      destruct Hr as [-> | ->]; simpl; auto.
  - eexists. split; [exact H1|]. split; [|done]. destruct Hr1 as [-> | ->]; simpl; auto.
  - done.
Qed.

(** The method calls of one turn of the loop.  The step is built, then
    its hook runs, then, unless it is skipped, it is probed; [setup] is
    called only after a probe, at most once, and is followed by one more
    probe unless the step is forced or [setup] raised.  A turn leaves
    through [exit] only after calling [setup], and then with status 1. *)
Theorem turn_protocol X opts c s :
  exists l, adds l s (snd (run_step X opts c s)) /\
    In l (turn_calls c (fst (run_step X opts c s))) /\
    forall code, fst (run_step X opts c s) = Exit code -> code = 1%Z.
Proof. apply run_step_calls. Qed.

(** ** The order of a run *)

Lemma instantiations_app t1 t2 :
  instantiations (t1 ++ t2) = instantiations t1 ++ instantiations t2.
Proof. unfold instantiations. apply omap_app. Qed.

Lemma instantiations_calls t : instantiations (calls t) = instantiations t.
Proof.
  induction t as [|e t IH]; [done|]. unfold instantiations, calls in *.
  destruct e; simpl; first [exact IH | f_equal; exact IH].
Qed.

Lemma setups_calls t : setups (calls t) = setups t.
Proof.
  induction t as [|e t IH]; [done|]. unfold setups, calls in *.
  destruct e; simpl; first [exact IH | f_equal; exact IH].
Qed.

Lemma adds_instantiations l s s' :
  adds l s s' -> instantiations (trace s') = instantiations (trace s) ++ instantiations l.
Proof.
  intros H. rewrite <- (instantiations_calls (trace s')), H, instantiations_app.
  by rewrite instantiations_calls.
Qed.

Lemma adds_setups l s s' :
  adds l s s' -> setups (trace s') = setups (trace s) ++ setups l.
Proof.
  intros H. rewrite <- (setups_calls (trace s')), H, setups_app.
  by rewrite setups_calls.
Qed.

(** What one turn adds to the steps built and to the steps set up. *)
Lemma run_step_order X opts c s :
  instantiations (trace (snd (run_step X opts c s))) = instantiations (trace s) ++ [c] /\
  (setups (trace (snd (run_step X opts c s))) = setups (trace s) \/
   setups (trace (snd (run_step X opts c s))) = setups (trace s) ++ [c]) /\
  (forall code, fst (run_step X opts c s) = Exit code ->
     code = 1%Z /\
     setups (trace (snd (run_step X opts c s))) = setups (trace s) ++ [c]).
Proof.
  destruct (run_step_calls X opts c s) as (l & Hl & Hin & Hexit).
  rewrite (adds_instantiations _ _ _ Hl), (adds_setups _ _ _ Hl).
  destruct (fst (run_step X opts c s)) as [[]|e|code]; simpl in Hin.
  - split; [|split; [|done]];
      repeat (destruct Hin as [<-|Hin]; [simpl; rewrite ?app_nil_r; auto|]); done.
  - split; [|split; [|done]];
      repeat (destruct Hin as [<-|Hin]; [simpl; rewrite ?app_nil_r; auto|]); done.
  - split; [|split];
      [repeat (destruct Hin as [<-|Hin]; [simpl; rewrite ?app_nil_r; auto|]); done..|].
    intros code' [= <-]. split; [by apply Hexit|].
    repeat (destruct Hin as [<-|Hin]; [simpl; rewrite ?app_nil_r; auto|]); done.
Qed.

(** The steps are built in the order of the catalog, each at most once,
    and the loop builds nothing after the turn at which it stops; the
    steps whose [setup] is called are some of the steps built, in the
    same order.  A loop that comes to its end has built every step. *)
Theorem steps_built_in_catalog_order X opts steps s :
  exists built done : list StepCls,
    instantiations (trace (snd (for_steps X opts steps s))) =
      instantiations (trace s) ++ built /\
    setups (trace (snd (for_steps X opts steps s))) = setups (trace s) ++ done /\
    built `prefix_of` steps /\ done `sublist_of` built /\
    (fst (for_steps X opts steps s) = Ok tt -> built = steps).
Proof.
  revert s. induction steps as [|c rest IH]; intros s.
  { exists [], []. simpl. by rewrite !app_nil_r. }
  destruct (run_step_order X opts c s) as (Hi & Hs & _).
  simpl. unfold bind. destruct (run_step X opts c s) as [[[]|e|code] s1]; simpl in *.
  - destruct (IH s1) as (built & done & Hb & Hd & Hp & Hsub & Hok).
    rewrite Hb, Hd, Hi.
    destruct Hs as [-> | ->].
    + exists (c :: built), done. rewrite <- app_assoc.
      split; [done|]. split; [done|]. split; [by apply prefix_cons|].
      split; [by apply sublist_cons|]. intros H. by rewrite Hok.
    + exists (c :: built), (c :: done). rewrite <- !app_assoc.
      split; [done|]. split; [done|]. split; [by apply prefix_cons|].
      split; [by apply sublist_skip|]. intros H. by rewrite Hok.
  - exists [c]. destruct Hs as [-> | ->].
    + exists []. rewrite app_nil_r. split; [done|]. split; [done|].
      split; [apply prefix_cons, prefix_nil|]. split; [apply sublist_nil_l|done].
    + exists [c]. split; [done|]. split; [done|].
      split; [apply prefix_cons, prefix_nil|]. split; [done|done].
  - exists [c]. destruct Hs as [-> | ->].
    + exists []. rewrite app_nil_r. split; [done|]. split; [done|].
      split; [apply prefix_cons, prefix_nil|]. split; [apply sublist_nil_l|done].
    + exists [c]. split; [done|]. split; [done|].
      split; [apply prefix_cons, prefix_nil|]. split; [done|done].
Qed.

(** The loop calls [exit] with status 1 only, and only right after the
    [setup] of the step it has just built. *)
Lemma for_steps_exit X opts steps s code s' :
  for_steps X opts steps s = (Exit code, s') ->
  code = 1%Z /\
  exists c, In c steps /\ last (setups (trace s')) = Some c /\
            last (instantiations (trace s')) = Some c.
Proof.
  revert s. induction steps as [|c rest IH]; intros s; [done|].
  destruct (run_step_order X opts c s) as (Hi & _ & Hexit).
  simpl. unfold bind. destruct (run_step X opts c s) as [[[]|e|code'] s1]; simpl in *.
  - intros H. destruct (IH _ H) as (-> & c' & Hin & H1 & H2).
    split; [done|]. exists c'. auto.
  - done.
  - intros [= -> ->]. destruct (Hexit code eq_refl) as [-> Hs].
    split; [done|]. exists c. rewrite Hs, Hi. split; [by left|].
    split; apply last_snoc.
Qed.

(** ** What a completed run has verified *)

(** A run that comes to its end has verified every step it did not
    skip.  For each step of the catalog, the loop reached it in some
    state [a], built it, and went on from the state [b] in which the
    step's turn ended; unless the step passed the skip test, it failed
    the force test and [b] is the state left by a probe of that step that
    answered yes: the probe asked right after the step was built, or the
    one asked after its [setup] had returned. *)
Theorem completed_run_verified X opts steps s s' front c rest :
  for_steps X opts steps s = (Ok tt, s') ->
  steps = front ++ c :: rest ->
  exists a st sa b,
    for_steps X opts front s = (Ok tt, a) /\
    reach X opts c a = (Ok st, sa) /\
    for_steps X opts rest b = (Ok tt, s') /\
    (str_in (class_name c) (skip opts) = true /\ b = sa \/
     str_in (class_name c) (skip opts) = false /\
     str_in (class_name c) (force opts) = false /\ verified X st sa b).
Proof.
  revert steps s. induction front as [|x front IH]; intros steps s Hrun ->.
  - apply for_steps_ok_inv in Hrun as (b & H1 & Hrest).
    unfold run_step in H1. apply bind_ok_inv in H1 as (st & sa & Hr & Hc).
    exists s, st, sa, b. split; [done|]. split; [done|]. split; [done|].
    rewrite <- (reach_name _ _ _ _ _ _ Hr). by apply conclude_ok_inv.
  - simpl in Hrun. apply for_steps_ok_inv in Hrun as (s1 & H1 & Hrest).
    destruct (IH _ _ Hrest eq_refl) as (a & st & sa & b & Hf & Hr & Ha & Hv).
    exists a, st, sa, b. split; [|done].
    by rewrite (for_steps_continue _ _ _ _ _ _ H1).
Qed.

Lemma completed_run_verified_witness :
  let X := Sim.machine Sim.healthy in
  let opts := set_os_version "linux" None (Sim.options "" "GitClone") in
  let s' := snd (for_steps X opts [UpdateHostsFile; GitClone] (Sim.start Sim.linux)) in
  exists a st sa b,
    for_steps X opts [] (Sim.start Sim.linux) = (Ok tt, a) /\
    reach X opts UpdateHostsFile a = (Ok st, sa) /\
    for_steps X opts [GitClone] b = (Ok tt, s') /\
    (str_in (class_name UpdateHostsFile) (skip opts) = true /\ b = sa \/
     str_in (class_name UpdateHostsFile) (skip opts) = false /\
     str_in (class_name UpdateHostsFile) (force opts) = false /\ verified X st sa b).
Proof.
  intros X opts s'.
  apply (completed_run_verified X opts [UpdateHostsFile; GitClone] (Sim.start Sim.linux) s'
           [] UpdateHostsFile [GitClone]).
  - apply pair_of_fst. by_evaluation.
  - reflexivity.
Defined.

(** ** Leaving through [exit] *)

(** [run_steps] leaves through [exit] with status 1 only, and then the
    last step it built is the step whose [setup] it called last: the
    loop exits only in the turn of a step, after that step's [setup]. *)
Theorem exit_status_is_one X temp opts s code s' :
  run_steps X temp opts s = (Exit code, s') ->
  code = 1%Z /\
  exists c, last (setups (trace s')) = Some c /\
            last (instantiations (trace s')) = Some c.
Proof.
  intros H. destruct (os_and_version (world s)) as [[o v]|e|c] eqn:E.
  - rewrite (run_steps_detected _ _ _ _ _ _ E) in H.
    destruct (for_steps_exit _ _ _ _ _ _ H) as (-> & c & _ & H1 & H2).
    split; [done|]. by exists c.
  - by rewrite (run_steps_undetected _ _ _ _ _ E) in H.
  - by destruct (os_and_version_never_exits (world s) c).
Qed.

Lemma exit_status_is_one_witness :
  let X := Sim.machine Sim.healthy in
  let run := run_steps X Sim.temp_dir (Sim.options "UpdateHostsFile" "") (Sim.start Sim.linux) in
  exists c, last (setups (trace (snd run))) = Some c /\
            last (instantiations (trace (snd run))) = Some c.
Proof.
  intros X run.
  apply (exit_status_is_one X Sim.temp_dir (Sim.options "UpdateHostsFile" "")
           (Sim.start Sim.linux) 1 (snd run)).
  apply pair_of_fst. by_evaluation.
Defined.

(** ** Hooks and constructors that run whatever the options say *)

(** [SetEnvironmentVariable.always_run] comes before the skip test: once
    the turn of [ProductionEnvironmentVariable] has returned, skipped or
    not, the variable of the running process is set. *)
Theorem production_variable_set X opts s st s' :
  reach X opts ProductionEnvironmentVariable s = (Ok st, s') ->
  environ (world s') !! "PRODUCTION" = Some "False" /\
  (str_in "ProductionEnvironmentVariable" (skip opts) = true ->
   run_step X opts ProductionEnvironmentVariable s = (Ok tt, s')).
Proof.
  intros Hr. split.
  - apply reach_inv in Hr as (s1 & Hi & Ha).
    destruct (instantiate_fields _ _ _ _ _ _ Hi) as [Hc _].
    unfold always_run in Ha. rewrite Hc in Ha. injection Ha as <-.
    simpl. apply lookup_insert_eq.
  - intros Hs. rewrite (run_step_reach _ _ _ _ _ _ Hr). apply conclude_skipped.
    by rewrite (reach_name _ _ _ _ _ _ Hr).
Qed.

Lemma production_variable_set_witness :
  let X := Sim.machine Sim.healthy in
  let opts := set_os_version "linux" None (Sim.options "" "ProductionEnvironmentVariable") in
  let s' := snd (reach X opts ProductionEnvironmentVariable (Sim.start Sim.linux)) in
  environ (world s') !! "PRODUCTION" = Some "False" /\
  (str_in "ProductionEnvironmentVariable" (skip opts) = true ->
   run_step X opts ProductionEnvironmentVariable (Sim.start Sim.linux) = (Ok tt, s')).
Proof.
  intros X opts s'.
  apply (production_variable_set X opts (Sim.start Sim.linux)
           (Sim.built opts ProductionEnvironmentVariable) s').
  apply pair_of_fst. by_evaluation.
Defined.

(** [VirtualEnv.__init__] changes into the project directory before
    anything else: while that directory does not exist, the turn of
    [VirtualEnv] raises [OSError] as soon as the step is built, also when
    the step is named in the skip text. *)
Theorem virtualenv_needs_project_dir X opts s :
  fs (world s) !! abspath (world s) (project_dir opts) <> Some Dir ->
  run_step X opts VirtualEnv s = (Raise OSError, noting (EInstantiate VirtualEnv) s).
Proof.
  intros H. unfold run_step, reach. unfold bind at 1. rewrite bind_emit.
  unfold instantiate, chdir, bind. simpl.
  destruct (fs (world s) !! abspath (world s) (project_dir opts)) as [[]|]; done.
Qed.

Lemma virtualenv_needs_project_dir_witness :
  let X := Sim.machine Sim.healthy in
  let opts := set_os_version "linux" None (Sim.options "" "GitClone,VirtualEnv") in
  run_step X opts VirtualEnv (Sim.start Sim.linux) =
    (Raise OSError, noting (EInstantiate VirtualEnv) (Sim.start Sim.linux)).
Proof.
  intros X opts. apply virtualenv_needs_project_dir.
  assert (E : fs (world (Sim.start Sim.linux)) !!
                abspath (world (Sim.start Sim.linux)) (project_dir opts) = None)
    by by_evaluation.
  rewrite E. discriminate.
Defined.

(** [RunServer.always_run] starts the server, prints the message and
    waits for the server before the skip test is reached: a turn of
    [RunServer] that returns has printed the message, whatever the skip
    text. *)
Theorem runserver_hook_runs X opts s st s' :
  reach X opts RunServer s = (Ok st, s') ->
  In (EPrint (congratulations "http://localhost:8001/")) (trace s').
Proof.
  intros Hr. apply reach_inv in Hr as (s1 & Hi & Ha).
  destruct (instantiate_fields _ _ _ _ _ _ Hi) as [Hc _].
  unfold always_run in Ha. rewrite Hc in Ha.
  apply bind_ok_inv in Ha as ([] & s2 & _ & Ha).
  apply bind_ok_inv in Ha as (w & s3 & _ & Ha). cbv zeta in Ha.
  apply bind_ok_inv in Ha as (sudo & s4 & _ & Ha).
  apply bind_ok_inv in Ha as (user & s5 & _ & Ha).
  unfold py_print in Ha. rewrite bind_emit in Ha.
  assert (Hk : emits (fun _ => True)
                 (noting (EPrint (congratulations "http://localhost:8001/")) s5) s').
  { match type of Ha with
    | ?m _ = _ => assert (Hm : keeps (emits (fun _ => True)) m)
    end.
    { unfold open_browser, self_sh_call, self_sh_attr. frame. }
    specialize (Hm (noting (EPrint (congratulations "http://localhost:8001/")) s5)).
    by rewrite Ha in Hm. }
  eapply emits_In; [exact Hk|]. apply In_noting.
Qed.

Lemma runserver_hook_runs_witness :
  let X := Sim.machine Sim.healthy in
  let opts := set_os_version "linux" None (Sim.options "" "RunServer") in
  let s := Sim.start (Sim.provisioned X Sim.linux) in
  In (EPrint (congratulations "http://localhost:8001/"))
     (trace (snd (reach X opts RunServer s))).
Proof.
  intros X opts s.
  apply (runserver_hook_runs X opts s (Sim.built opts RunServer)).
  apply pair_of_fst. by_evaluation.
Defined.

(** ** Errors of [setup] the loop does not catch *)

(** Only [sh.ErrorReturnCode] is caught around [setup]: any other
    exception of a step's [setup] ends the run with that exception, with
    no second probe and no trouble-shooting text. *)
Theorem setup_error_not_caught X opts st s b s1 e s2 :
  str_in (display_name st) (skip opts) = false ->
  already_satisfied X st (noting (EProbe (cls st)) s) = (Ok b, s1) ->
  b && negb (str_in (display_name st) (force opts)) = false ->
  setup X st (noting (ESetup (cls st)) (noting (EPrint (display_doing st +:+ "...")) s1)) =
    (Raise e, s2) ->
  (forall err, e <> ErrorReturnCode err) ->
  conclude X opts st s = (Raise e, s2).
Proof.
  intros Hs Hp Hb Hsetup He. unfold conclude. rewrite Hs, bind_emit.
  rewrite (bind_ok _ _ _ _ _ Hp), Hb. unfold py_print. rewrite bind_emit.
  apply bind_raise. unfold guarded_setup. rewrite bind_emit. unfold try_except.
  rewrite Hsetup. destruct e; try done. by destruct (He stderr).
Qed.

Lemma setup_error_not_caught_witness :
  let X := Sim.machine Sim.healthy in
  let opts := set_os_version "linux" None (Sim.options "" "") in
  let st := Sim.built opts UpdateHostsFile in
  let s := Sim.start (set_fs (delete "/etc/hosts" (fs Sim.linux)) Sim.linux) in
  conclude X opts st s =
    (Raise IOError,
     noting_all [EProbe UpdateHostsFile; EPrint "Updating hosts file...";
                 ESetup UpdateHostsFile] s).
Proof.
  intros X opts st s.
  apply (setup_error_not_caught X opts st s false (noting (EProbe UpdateHostsFile) s)).
  - reflexivity.
  - by_evaluation.
  - reflexivity.
  - by_evaluation.
  - discriminate.
Defined.

(** [RunServer] is always found satisfied, so its [setup], which the
    class does not define, is called only for a forced step; the base
    class's [setup] then raises [NotImplementedError], which ends the run. *)
Theorem runserver_turn X opts st s :
  cls st = RunServer ->
  str_in "RunServer" (skip opts) = false ->
  conclude X opts st s =
    if str_in "RunServer" (force opts)
    then (Raise NotImplementedError,
          noting (ESetup RunServer)
            (noting (EPrint "Running local development web server...")
               (noting (EProbe RunServer) s)))
    else (Ok tt, noting (EProbe RunServer) s).
Proof.
  intros Hc Hs.
  assert (Hn : display_name st = "RunServer") by (unfold display_name; by rewrite Hc).
  assert (Hd : display_doing st = "Running local development web server")
    by (unfold display_doing; by rewrite Hc).
  assert (Hp : forall s0, already_satisfied X st s0 = (Ok true, s0))
    by (intros s0; unfold already_satisfied; by rewrite Hc).
  unfold conclude. rewrite Hn, Hs, bind_emit, Hc, (bind_ok _ _ _ _ _ (Hp _)).
  destruct (str_in "RunServer" (force opts)); [|done].
  change (true && negb true) with false. cbv iota.
  unfold py_print. rewrite bind_emit, Hd.
  apply bind_raise. unfold guarded_setup. rewrite bind_emit. unfold try_except, setup.
  by rewrite Hc.
Qed.

Lemma runserver_turn_witness :
  let X := Sim.machine Sim.healthy in
  let opts := set_os_version "linux" None (Sim.options "RunServerAlias" "") in
  conclude X opts (Sim.built opts RunServer) (Sim.start Sim.linux) =
    (Raise NotImplementedError,
     noting (ESetup RunServer)
       (noting (EPrint "Running local development web server...")
          (noting (EProbe RunServer) (Sim.start Sim.linux)))).
Proof.
  intros X opts.
  apply (runserver_turn X opts (Sim.built opts RunServer) (Sim.start Sim.linux) eq_refl eq_refl).
Defined.

(** ** Methods of the steps never end the process *)

(** No method of any step calls [exit]: building a step, its hook, its
    probe and its [setup] return or raise. *)
Theorem steps_never_exit X c opts st code s s' :
  instantiate X c opts s <> (Exit code, s') /\
  always_run X st s <> (Exit code, s') /\
  already_satisfied X st s <> (Exit code, s') /\
  setup X st s <> (Exit code, s').
Proof.
  split; [apply never_exits_instantiate|].
  split; [apply never_exits_always_run|].
  split; [apply never_exits_already_satisfied|apply never_exits_setup].
Qed.

(** ** The temporary directory *)

(** [make_temp_directory] creates the directory [mkdtemp] names and
    makes it the working directory; nothing removes it again, and no
    other path changes. *)
Theorem make_temp_directory_spec X s :
  starts_with "/" (ext_mkdtemp X (world s)) = true ->
  make_temp_directory X s =
    (Ok (ext_mkdtemp X (world s)),
     mkSt (set_cwd (ext_mkdtemp X (world s))
             (set_fs (<[ext_mkdtemp X (world s) := Dir]> (fs (world s))) (world s)))
          (trace s)).
Proof.
  intros Habs. unfold make_temp_directory.
  change (bind get_world ?k s) with (k (world s) s). cbv beta zeta.
  change (bind (put_world ?w) ?k s) with (k tt (mkSt w (trace s))). cbv beta.
  assert (Ha : forall w, abspath w (ext_mkdtemp X (world s)) = ext_mkdtemp X (world s))
    by (intros w; unfold abspath; by rewrite Habs).
  unfold bind, chdir. cbn [world fs set_fs]. rewrite !Ha, lookup_insert_eq. done.
Qed.

Lemma make_temp_directory_spec_witness :
  let X := Sim.machine Sim.healthy in
  fst (make_temp_directory X (Sim.start Sim.linux)) = Ok "/tmp/tmpJk3bQz".
Proof.
  intros X.
  rewrite (make_temp_directory_spec X (Sim.start Sim.linux) eq_refl). reflexivity.
Defined.

(** ** Versions *)

(** [XCodeInstall.setup] knows the downloads for OS X 10.7 and 10.8
    only: for any other version it raises [NotImplementedError] before
    it has touched the machine. *)
Theorem xcode_setup_unknown_version X st s :
  cls st = XCodeInstall ->
  (forall v, opt_version (options st) = Some v ->
             Qeq_bool v (107 # 10) = false /\ Qeq_bool v (108 # 10) = false) ->
  setup X st s = (Raise NotImplementedError, s).
Proof.
  intros Hc Hv. unfold setup. rewrite Hc. unfold XCodeInstall_setup, xcode_download.
  destruct (opt_version (options st)) as [v|]; [|done].
  destruct (Hv v eq_refl) as [-> ->]. done.
Qed.

Lemma xcode_setup_unknown_version_witness :
  let X := Sim.machine Sim.healthy in
  let st := Sim.built (set_os_version "osx" (Some (109 # 10)) (Sim.options "" "")) XCodeInstall in
  setup X st (Sim.start Sim.osx) = (Raise NotImplementedError, Sim.start Sim.osx).
Proof.
  intros X st. apply xcode_setup_unknown_version; [done|].
  intros v [= <-]. by split.
Defined.

Lemma before_sep_cons sep a s :
  before_sep sep (String a s) =
    if starts_with sep (String a s) then "" else String a (before_sep sep s).
Proof. done. Qed.

Lemma starts_with_cons a p b s :
  starts_with (String a p) (String b s) = Ascii.eqb a b && starts_with p s.
Proof. done. Qed.

Lemma no_equals_sign a name :
  str_in "=" (String a name) = false ->
  starts_with "==" (String a name) = false /\ str_in "=" name = false /\
  forall rest, starts_with "==" (String a rest) = false.
Proof.
  rewrite str_in_unfold. intros [Ha Hn]%orb_false_iff.
  rewrite starts_with_cons in Ha. change (starts_with "" name) with true in Ha.
  rewrite andb_true_r in Ha.
  split; [|split; [done|intros rest]]; by rewrite starts_with_cons, Ha.
Qed.

Lemma before_sep_pin name v :
  str_in "=" name = false -> before_sep "==" (name +:+ "==" +:+ v) = name.
Proof.
  induction name as [|a name IH]; [done|].
  intros (_ & Hn & Ha)%no_equals_sign.
  change (String a name +:+ "==" +:+ v) with (String a (name +:+ "==" +:+ v)).
  by rewrite before_sep_cons, Ha, IH.
Qed.

Lemma before_sep_plain name : str_in "=" name = false -> before_sep "==" name = name.
Proof.
  induction name as [|a name IH]; [done|].
  intros (H & Hn & _)%no_equals_sign. by rewrite before_sep_cons, H, IH.
Qed.

(** [extract_pips] keeps what stands before the first [==]: a pinned
    requirement and the bare name give the same item, so the probe of
    [VirtualEnv] accepts an installed package of any version for a
    requirement pinned to another. *)
Theorem pinned_version_ignored name v1 v2 :
  str_in "=" name = false ->
  extract_pips [name +:+ "==" +:+ v1] = extract_pips [name] /\
  all_among (extract_pips [name +:+ "==" +:+ v1]) (extract_pips [name +:+ "==" +:+ v2]) = true.
Proof.
  intros Hn. unfold extract_pips, all_among. simpl.
  rewrite !before_sep_pin, before_sep_plain by done.
  split; [done|]. by rewrite String.eqb_refl.
Qed.

Lemma pinned_version_ignored_witness :
  extract_pips ["Django" +:+ "==" +:+ "1.5.1"] = extract_pips ["Django"] /\
  all_among (extract_pips ["Django" +:+ "==" +:+ "1.5.1"])
            (extract_pips ["Django" +:+ "==" +:+ "1.4"]) = true.
Proof. by apply pinned_version_ignored. Defined.

(** ** The shell profile in a run *)

(** [run_steps] stores the detected family in the options before it
    builds any step, and detection knows two families only: for the
    options of a run, [bash_config_file] never raises
    [NotImplementedError]; it names [.bashrc] on Linux and
    [.bash_profile] on OS X, in the home directory. *)
Theorem profile_known_in_run w o v opts s :
  os_and_version w = Ok (o, v) ->
  bash_config_file (set_os_version o v opts) s =
    (Ok (path_join (home_dir opts)
           (if String.eqb o "linux" then ".bashrc" else ".bash_profile")), s) /\
  (o = "linux" \/ o = "osx").
Proof.
  unfold os_and_version. intros H.
  destruct (String.eqb (platform w) "darwin").
  - destruct (parse_version (mac_ver w)); [|done]. injection H as <- <-. auto.
  - destruct (String.eqb (platform w) "linux2"); [|done]. injection H as <- <-. auto.
Qed.

Lemma profile_known_in_run_witness :
  bash_config_file (set_os_version "osx" (Some (108 # 10)) (Sim.options "" ""))
    (Sim.start Sim.osx) =
  (Ok "/home/dev/.bash_profile", Sim.start Sim.osx).
Proof.
  apply (profile_known_in_run Sim.osx "osx" (Some (108 # 10)) (Sim.options "" "")
           (Sim.start Sim.osx)).
  by_evaluation.
Defined.

